(** * Verification model of the LinkedIn plugin scripts

    Shallow embedding of [scripts/oauth-server.py] and
    [scripts/linkedin-api.py].

    Conventions of the model:
    - a Python [str] is a Rocq [string]; one Python code point is one
      [ascii] character;
    - a Python [dict] with string keys is a [gmap string _];
    - [time.time()] is read from the world as whole epoch seconds;
    - the process-level effects (settings file, other files, network,
      standard streams, [sys.exit] and uncaught exceptions) are threaded
      through a small state-and-exception monad [M]. *)

From Stdlib Require Import String Ascii ZArith DecimalString DecimalZ DecimalPos.
From stdpp Require Import base gmap strings list.

Open Scope string_scope.

(* ------------------------------------------------------------------ *)
(** ** Python string built-ins *)

Definition dq : ascii := "034"%char.  (* the double quote character *)
Definition sq : ascii := "039"%char.  (* the single quote character *)
Definition nl_c : ascii := "010"%char.

Definition dq_s : string := String dq EmptyString.
Definition nl : string := String nl_c EmptyString.

(** [str.isspace] restricted to ASCII: \t \n \v \f \r, \x1c-\x1f, space. *)
Definition is_pyspace (c : ascii) : bool :=
  let n := nat_of_ascii c in
  (((9 <=? n) && (n <=? 13)) || ((28 <=? n) && (n <=? 32)))%nat.

Fixpoint strip_left (p : ascii -> bool) (s : string) : string :=
  match s with
  | EmptyString => EmptyString
  | String c s' => if p c then strip_left p s' else s
  end.

Fixpoint strip_right (p : ascii -> bool) (s : string) : string :=
  match s with
  | EmptyString => EmptyString
  | String c s' =>
      let r := strip_right p s' in
      match r with
      | EmptyString => if p c then EmptyString else String c EmptyString
      | _ => String c r
      end
  end.

(** [s.strip(chars)]: [py_strip is_pyspace] is the argument-less [strip()]. *)
Definition py_strip (p : ascii -> bool) (s : string) : string :=
  strip_right p (strip_left p s).

Definition is_char (c : ascii) (x : ascii) : bool := Ascii.eqb x c.

(** [sub in s] *)
Fixpoint py_in (sub s : string) : bool :=
  String.prefix sub s ||
  match s with
  | EmptyString => false
  | String _ s' => py_in sub s'
  end.

(** [s.partition(c)] for a one-character separator. *)
Fixpoint py_partition (c : ascii) (s : string) : string * string * string :=
  match s with
  | EmptyString => (EmptyString, EmptyString, EmptyString)
  | String x s' =>
      if Ascii.eqb x c then (EmptyString, String c EmptyString, s')
      else let '(h, m, t) := py_partition c s' in (String x h, m, t)
  end.

(** [s.split(sep)]: scan left to right; [cur] holds the characters of the
    current piece in reverse, and a piece ends as soon as it ends with
    [sep] (leftmost, non-overlapping occurrences, as CPython does).
    [rsep] is [sep] reversed; [sep] is non-empty at every call site. *)
Fixpoint list_prefix (l1 l2 : list ascii) : bool :=
  match l1, l2 with
  | [], _ => true
  | a :: l1', b :: l2' => Ascii.eqb a b && list_prefix l1' l2'
  | _ :: _, [] => false
  end%list.

Fixpoint string_of_rev (l : list ascii) : string :=
  match l with
  | [] => EmptyString
  | c :: l' => String.append (string_of_rev l') (String c EmptyString)
  end.

Fixpoint split_go (rsep cur : list ascii) (s : string) : list string :=
  match s with
  | EmptyString => [string_of_rev cur]
  | String c s' =>
      if list_prefix rsep (c :: cur) then
        string_of_rev (skipn (length rsep) (c :: cur)) :: split_go rsep [] s'
      else split_go rsep (c :: cur) s'
  end%list.

Definition py_split (sep s : string) : list string :=
  split_go (rev (list_ascii_of_string sep)) [] s.

(** [str(n)] for a Python [int]. *)
Definition Zstr (z : Z) : string := NilZero.string_of_int (Z.to_int z).

(** [int(s)] for a string: surrounding whitespace, an optional sign and
    decimal digits (digit-group underscores are not modelled); [None] is
    the [ValueError] case. *)
Definition py_int (s : string) : option Z :=
  let t := py_strip is_pyspace s in
  match t with
  | String c t' =>
      if Ascii.eqb c "+"%char
      then option_map Z.of_uint (NilZero.uint_of_string t')
      else option_map Z.of_int (NilZero.int_of_string t)
  | EmptyString => None
  end.

Definition py_lower_c (c : ascii) : ascii :=
  let n := nat_of_ascii c in
  if ((65 <=? n) && (n <=? 90))%nat then ascii_of_nat (n + 32)%nat else c.

(** [s.lower()] on ASCII. *)
Fixpoint py_lower (s : string) : string :=
  match s with
  | EmptyString => EmptyString
  | String c s' => String (py_lower_c c) (py_lower s')
  end.

(** [s[-n:]] *)
Definition py_tail (n : nat) (s : string) : string :=
  substring (String.length s - n)%nat n s.

(** [s[:n]] *)
Definition py_head (n : nat) (s : string) : string := substring 0 n s.

(* ------------------------------------------------------------------ *)
(** ** JSON values, HTTP exchanges and the world *)

(** A decoded JSON document; an object keeps its members in order, and a
    repeated key is read as its last occurrence, like [json.loads]. *)
#[local] Set Warnings "-register-all".
Inductive json : Type :=
| JNull
| JBool (b : bool)
| JNum (z : Z)
| JStr (s : string)
| JArr (l : list json)
| JObj (members : list (string * json)).

Definition obj_lookup (k : string) (members : list (string * json)) : option json :=
  fold_left (fun acc '(k', v) => if String.eqb k' k then Some v else acc)
    members None.

Inductive req_body : Type :=
| NoBody
| JsonBody (j : json)            (* [json.dumps(data).encode()] *)
| FormBody (fields : list (string * string))  (* [urlencode(...)] *)
| RawBody (bytes : string).      (* [binary_data] *)

Record http_request : Type := mk_request {
  rq_method : string;
  rq_url : string;
  rq_headers : list (string * string);
  rq_body : req_body }.

(** What [urlopen] produces: a response (a [None] body is an empty body),
    an [HTTPError] (status, reason, error body) or any other [URLError]. *)
Inductive http_response : Type :=
| HttpResp (status : Z) (headers : list (string * string)) (body : option json)
| HttpError (code : Z) (reason : string) (error_body : string)
| UrlError (reason : string).

(** The environment and the observable effects of one process. *)
Record world : Type := mk_world {
  w_settings : option string;          (* contents of SETTINGS_PATH *)
  w_clock : Z;                         (* time.time() *)
  w_localtime : Z -> string;           (* strftime(..., localtime(t)) *)
  w_files : string -> option string;   (* readable files, by path *)
  w_net : nat -> http_request -> http_response;
      (* the server's answer to the n-th request *)
  w_calls : list http_request;         (* requests sent so far *)
  w_stdout : list string;
  w_stderr : list string }.

Definition set_settings (s : option string) (w : world) : world :=
  mk_world s (w_clock w) (w_localtime w) (w_files w) (w_net w) (w_calls w)
    (w_stdout w) (w_stderr w).

Definition add_call (rq : http_request) (w : world) : world :=
  mk_world (w_settings w) (w_clock w) (w_localtime w) (w_files w) (w_net w)
    (w_calls w ++ [rq])%list (w_stdout w) (w_stderr w).

Definition add_stdout (line : string) (w : world) : world :=
  mk_world (w_settings w) (w_clock w) (w_localtime w) (w_files w) (w_net w)
    (w_calls w) (w_stdout w ++ [line])%list (w_stderr w).

Definition add_stderr (line : string) (w : world) : world :=
  mk_world (w_settings w) (w_clock w) (w_localtime w) (w_files w) (w_net w)
    (w_calls w) (w_stdout w) (w_stderr w ++ [line])%list.

(* ------------------------------------------------------------------ *)
(** ** The process monad: state plus [SystemExit] and other exceptions *)

Inductive exc : Type :=
| SysExit (code : Z)       (* sys.exit(code) *)
| Raised (name : string).  (* any other uncaught exception *)

Inductive res (A : Type) : Type :=
| Ok (a : A)
| Exc (e : exc).
Arguments Ok {A} a.
Arguments Exc {A} e.

Definition M (A : Type) : Type := world -> res A * world.

Definition ret {A} (a : A) : M A := fun w => (Ok a, w).

Definition bind {A B} (c : M A) (k : A -> M B) : M B :=
  fun w => match c w with
           | (Ok a, w') => k a w'
           | (Exc e, w') => (Exc e, w')
           end.

Notation "x <- c ;; k" := (bind c (fun x => k))
  (at level 100, c at next level, right associativity).
Notation "c ;;; k" := (bind c (fun _ => k))
  (at level 100, right associativity).

Definition throw {A} (e : exc) : M A := fun w => (Exc e, w).
Definition sys_exit {A} (code : Z) : M A := throw (SysExit code).

(** [try: c except SystemExit: h] *)
Definition catch_sysexit {A} (c : M A) (h : M A) : M A :=
  fun w => match c w with
           | (Exc (SysExit _), w') => h w'
           | r => r
           end.

Definition print_out (line : string) : M unit := fun w => (Ok tt, add_stdout line w).
Definition print_err (line : string) : M unit := fun w => (Ok tt, add_stderr line w).
Definition time_time : M Z := fun w => (Ok (w_clock w), w).
Definition localtime_str (t : Z) : M string := fun w => (Ok (w_localtime w t), w).

(** [urlopen(req)]: the request is sent and the server answers. *)
Definition urlopen (rq : http_request) : M http_response :=
  fun w => (Ok (w_net w (length (w_calls w)) rq), add_call rq w).

(** The exit status of the process after a command returns or raises. *)
Definition exit_code {A} (r : res A) : Z :=
  match r with
  | Ok _ => 0
  | Exc (SysExit n) => n
  | Exc (Raised _) => 1
  end.

(* ------------------------------------------------------------------ *)
(** ** Credential store: [save_settings] (oauth-server.py) *)

Definition quoted (v : string) : string := dq_s ++ v ++ dq_s.

(** The f-string written by [save_settings]. *)
Definition settings_content (client_id client_secret access_token person_urn
    display_name : string) (expires_at : Z) (expires_str : string) : string :=
  "---" ++ nl ++
  "client_id: " ++ quoted client_id ++ nl ++
  "client_secret: " ++ quoted client_secret ++ nl ++
  "access_token: " ++ quoted access_token ++ nl ++
  "person_urn: " ++ quoted person_urn ++ nl ++
  "display_name: " ++ quoted display_name ++ nl ++
  "token_expires_at: " ++ Zstr expires_at ++ nl ++
  "---" ++ nl ++
  nl ++
  "# LinkedIn Plugin Settings" ++ nl ++
  nl ++
  "Authenticated as **" ++ display_name ++ "** (" ++ person_urn ++ ")." ++ nl ++
  nl ++
  "Token expires at: " ++ expires_str ++ nl ++
  nl ++
  "To re-authenticate, run `/linkedin:setup` again." ++ nl.

Definition save_settings (client_id client_secret access_token person_urn
    display_name : string) (expires_in : Z) : M unit :=
  now <- time_time ;;
  let expires_at := (now + expires_in)%Z in
  when <- localtime_str expires_at ;;
  fun w => (Ok tt, set_settings
    (Some (settings_content client_id client_secret access_token person_urn
             display_name expires_at when)) w).

(* ------------------------------------------------------------------ *)
(** ** Credential store: [load_settings] (linkedin-api.py) *)

(** The loop over the frontmatter lines. *)
Definition parse_line (settings : gmap string string) (line0 : string)
    : gmap string string :=
  let line := py_strip is_pyspace line0 in
  if py_in ":" line then
    let '(key, _, value0) := py_partition ":"%char line in
    let value := py_strip (is_char sq) (py_strip (is_char dq)
                   (py_strip is_pyspace value0)) in
    <[py_strip is_pyspace key := value]> settings
  else settings.

Definition parse_frontmatter (frontmatter : string) : gmap string string :=
  fold_left parse_line (py_split nl (py_strip is_pyspace frontmatter)) ∅.

Fixpoint check_required (keys : list string) (settings : gmap string string)
    : M unit :=
  match keys with
  | [] => ret tt
  | key :: keys' =>
      match settings !! key with
      | Some v =>
          if String.eqb v EmptyString then
            print_err ("ERROR=Missing " ++ key ++
                       " in settings. Run /linkedin:setup first.") ;;;
            sys_exit 1
          else check_required keys' settings
      | None =>
          print_err ("ERROR=Missing " ++ key ++
                     " in settings. Run /linkedin:setup first.") ;;;
          sys_exit 1
      end
  end%list.

Definition load_settings : M (gmap string string) :=
  fun w =>
  match w_settings w with
  | None =>
      (print_err "ERROR=Settings file not found. Run /linkedin:setup first." ;;;
       sys_exit 1) w
  | Some content =>
      (if negb (String.prefix "---" content) then
         print_err "ERROR=Invalid settings file format." ;;; sys_exit 1
       else
         match py_split "---" content with
         | _ :: frontmatter :: _ =>
             let settings := parse_frontmatter frontmatter in
             check_required ["access_token"; "person_urn"]%list settings ;;;
             expires_at <- (match settings !! "token_expires_at" with
                            | None => ret 0%Z
                            | Some v => match py_int v with
                                        | Some z => ret z
                                        | None => throw (Raised "ValueError")
                                        end
                            end) ;;
             now <- time_time ;;
             if negb (Z.eqb expires_at 0) && Z.ltb expires_at now then
               print_err ("ERROR=Access token has expired. " ++
                          "Run /linkedin:setup to re-authenticate.") ;;;
               sys_exit 1
             else ret settings
         | _ => throw (Raised "IndexError")
         end) w
  end.

(* ------------------------------------------------------------------ *)
(** ** Shared HTTP plumbing (linkedin-api.py) *)

Definition LINKEDIN_VERSION : string := "202601".
Definition API_BASE : string := "https://api.linkedin.com/rest".

Definition hex_digit (n : nat) : ascii :=
  if (n <? 10)%nat then ascii_of_nat (48 + n)%nat else ascii_of_nat (55 + n)%nat.

(** [urllib.parse.quote(s, safe="")] on ASCII text. *)
Definition quote_char (c : ascii) : string :=
  let n := nat_of_ascii c in
  if (((48 <=? n) && (n <=? 57)) || ((65 <=? n) && (n <=? 90))
     || ((97 <=? n) && (n <=? 122))
     || (n =? 95) || (n =? 46) || (n =? 45) || (n =? 126))%nat
  then String c EmptyString
  else String "%"%char (String (hex_digit (n / 16)%nat) (String (hex_digit (n mod 16)%nat) EmptyString)).

Fixpoint url_quote (s : string) : string :=
  match s with
  | EmptyString => EmptyString
  | String c s' => quote_char c ++ url_quote s'
  end.

(** [email.message.Message.__getitem__]: the first header whose name
    matches case-insensitively. *)
Definition msg_get (hs : list (string * string)) (k : string) : option string :=
  match List.find (fun '(k', _) => String.eqb (py_lower k') (py_lower k)) hs with
  | Some (_, v) => Some v
  | None => None
  end.

(** [dict(resp.headers)]: one entry per header name as sent, each mapped
    to [resp.headers[name]]. *)
Definition headers_dict (hs : list (string * string)) : gmap string string :=
  fold_left (fun m '(k, _) =>
               match msg_get hs k with
               | Some v => <[k := v]> m
               | None => m
               end) hs ∅.

(** [d.get(k, default)] *)
Definition dict_get (m : gmap string string) (k d : string) : string :=
  match m !! k with Some v => v | None => d end.

Definition get_api_headers (access_token : string) : list (string * string) :=
  [("Authorization", ("Bearer " ++ access_token)%string);
   ("X-Restli-Protocol-Version", "2.0.0");
   ("Linkedin-Version", LINKEDIN_VERSION);
   ("Content-Type", "application/json")]%list.

Record api_resp : Type := mk_api_resp {
  ar_status : Z;
  ar_headers : gmap string string;
  ar_body : json }.

Definition api_request (method url : string) (headers : list (string * string))
    (data : option json) (binary_data : option string) : M api_resp :=
  let body := match binary_data, data with
              | Some b, _ => RawBody b
              | None, Some d => JsonBody d
              | None, None => NoBody
              end in
  resp <- urlopen (mk_request method url headers body) ;;
  match resp with
  | HttpResp status hs b =>
      ret (mk_api_resp status (headers_dict hs)
             (match b with Some j => j | None => JObj [] end))
  | HttpError code reason error_body =>
      print_err ("ERROR=API request failed: " ++ Zstr code ++ " " ++ reason) ;;;
      (if String.eqb error_body EmptyString then ret tt
       else print_err ("DETAILS=" ++ error_body)) ;;;
      sys_exit 1
  | UrlError _ => throw (Raised "URLError")
  end.

(** [j.get(k)] on a decoded JSON value that must be an object. *)
Definition json_get (j : json) (k : string) : M (option json) :=
  match j with
  | JObj members => ret (obj_lookup k members)
  | _ => throw (Raised "AttributeError")
  end.

(** [j[k]] *)
Definition json_index (j : json) (k : string) : M json :=
  match j with
  | JObj members => match obj_lookup k members with
                    | Some v => ret v
                    | None => throw (Raised "KeyError")
                    end
  | _ => throw (Raised "TypeError")
  end.

(** A JSON value interpolated into an f-string: strings print as they
    are; other values print as a fixed placeholder (their Python [repr]
    is not modelled). *)
Definition json_str (j : json) : string :=
  match j with
  | JStr s => s
  | JNum z => Zstr z
  | _ => "<json>"
  end.

(** [m[k]] on the settings dictionary. *)
Definition dict_index (m : gmap string string) (k : string) : M string :=
  match m !! k with Some v => ret v | None => throw (Raised "KeyError") end.

Definition read_file (path : string) : M (option string) :=
  fun w => (Ok (w_files w path), w).

(* ------------------------------------------------------------------ *)
(** ** Media upload, post creation and the text checks *)

(** [upload_image]; [Path(image_path).resolve()] is the path itself. *)
Definition upload_image (access_token person_urn image_path : string) : M json :=
  f <- read_file image_path ;;
  match f with
  | None =>
      print_err ("ERROR=Image file not found: " ++ image_path) ;;; sys_exit 1
  | Some image_bytes =>
      let init_data := JObj [("initializeUploadRequest",
                              JObj [("owner", JStr person_urn)])]%list in
      let headers := get_api_headers access_token in
      resp <- api_request "POST" (API_BASE ++ "/images?action=initializeUpload")
                headers (Some init_data) None ;;
      let body := ar_body resp in
      value <- json_get body "value" ;;
      let inner := match value with Some v => v | None => body end in
      upload_url <- json_index inner "uploadUrl" ;;
      image_urn <- json_index inner "image" ;;
      let upload_headers := [("Authorization", ("Bearer " ++ access_token)%string);
                             ("Content-Type", "application/octet-stream")]%list in
      match upload_url with
      | JStr url =>
          r <- urlopen (mk_request "PUT" url upload_headers (RawBody image_bytes)) ;;
          match r with
          | HttpResp _ _ _ => ret image_urn
          | HttpError _ _ _ => throw (Raised "HTTPError")
          | UrlError _ => throw (Raised "URLError")
          end
      | _ => throw (Raised "TypeError")
      end
  end.

(** [verify_post_text]; a commentary that is not a JSON string is not
    modelled beyond raising. *)
Definition verify_post_text (access_token post_id expected_text : string) : M unit :=
  let headers := get_api_headers access_token in
  let encoded_urn := url_quote post_id in
  catch_sysexit
    (resp <- api_request "GET" (API_BASE ++ "/posts/" ++ encoded_urn) headers None None ;;
     c <- json_get (ar_body resp) "commentary" ;;
     stored <- (match c with
                | None => ret EmptyString
                | Some (JStr s) => ret s
                | Some _ => throw (Raised "TypeError")
                end) ;;
     let sent_len := String.length expected_text in
     let stored_len := String.length stored in
     if (stored_len <? sent_len)%nat then
       print_err ("WARNING=Text truncated by LinkedIn API: sent " ++
                  Zstr (Z.of_nat sent_len) ++ " chars, stored " ++
                  Zstr (Z.of_nat stored_len) ++ " chars (" ++
                  Zstr (Z.of_nat (stored_len * 100 / sent_len)) ++ "%)") ;;;
       print_err ("TRUNCATED_AT=" ++ py_tail 80 stored) ;;;
       print_err ("WARNING=Edit the post via LinkedIn web UI to fix the text. " ++
                  "The REST API PARTIAL_UPDATE is unreliable for commentary.")
     else
       print_err ("VERIFIED=Post text intact (" ++ Zstr (Z.of_nat stored_len) ++
                  " chars)"))
    (print_err "WARNING=Could not verify post text (API read failed)").

(** A JSON value used as a condition ([if content:]). *)
Definition json_truthy (j : json) : bool :=
  match j with
  | JNull => false
  | JBool b => b
  | JNum z => negb (Z.eqb z 0)
  | JStr s => negb (String.eqb s EmptyString)
  | JArr l => negb (Nat.eqb (length l) 0)
  | JObj m => negb (Nat.eqb (length m) 0)
  end.

(** The [post_data] dictionary of [create_post]. *)
Definition post_payload (person_urn text : string) (content : option json)
    (visibility : string) : json :=
  let post_data0 :=
    [("author", JStr person_urn);
     ("commentary", JStr text);
     ("visibility", JStr visibility);
     ("distribution", JObj [("feedDistribution", JStr "MAIN_FEED");
                            ("targetEntities", JArr []);
                            ("thirdPartyDistributionChannels", JArr [])]);
     ("lifecycleState", JStr "PUBLISHED");
     ("isReshareDisabledByAuthor", JBool false)]%list in
  match content with
  | Some c => if json_truthy c then JObj (post_data0 ++ [("content", c)])%list
              else JObj post_data0
  | None => JObj post_data0
  end.

(** The request [create_post] sends. *)
Definition post_request (access_token person_urn text : string)
    (content : option json) (visibility : string) : http_request :=
  mk_request "POST" (API_BASE ++ "/posts") (get_api_headers access_token)
    (JsonBody (post_payload person_urn text content visibility)).

Definition create_post (access_token person_urn text : string)
    (content : option json) (visibility : string) : M string :=
  let post_data := post_payload person_urn text content visibility in
  let headers := get_api_headers access_token in
  resp <- api_request "POST" (API_BASE ++ "/posts") headers (Some post_data) None ;;
  let post_id := dict_get (ar_headers resp) "x-restli-id"
                   (dict_get (ar_headers resp) "X-Restli-Id" EmptyString) in
  (if negb (String.eqb post_id EmptyString)
   then verify_post_text access_token post_id text
   else ret tt) ;;;
  ret post_id.

Definition validate_text_length (text : string) (warn_threshold : nat) : M bool :=
  let length := String.length text in
  if (warn_threshold <? length)%nat then
    print_err ("WARNING=Text is " ++ Zstr (Z.of_nat length) ++
               " chars, exceeds LinkedIn's ~" ++ Zstr (Z.of_nat warn_threshold) ++
               " char limit. Post may be silently truncated by the API.") ;;;
    print_err ("RECOMMEND=Use --preview to upload images without posting, " ++
               "then paste text via LinkedIn's web UI.") ;;;
    ret false
  else
    print_err ("TEXT_LENGTH=" ++ Zstr (Z.of_nat length) ++ " chars (limit ~" ++
               Zstr (Z.of_nat warn_threshold) ++ ")") ;;;
    ret true.

(** [resolve_text]; a missing text (only when [--text-file ""] is given)
    raises at once, where Python raises at the next use of the text. *)
Definition resolve_text (text text_file : option string) : M string :=
  match text_file with
  | Some p =>
      if String.eqb p EmptyString then
        match text with Some t => ret t | None => throw (Raised "TypeError") end
      else
        f <- read_file p ;;
        match f with
        | None => print_err ("ERROR=Text file not found: " ++ p) ;;; sys_exit 1
        | Some c => ret (py_strip is_pyspace c)
        end
  | None => match text with Some t => ret t | None => throw (Raised "TypeError") end
  end.

(* ------------------------------------------------------------------ *)
(** ** Commands *)

Record multi_image_args : Type := mk_multi_image_args {
  ma_text : option string;
  ma_text_file : option string;
  ma_images : list string;
  ma_alt_texts : option (list string);
  ma_visibility : string;
  ma_preview : bool }.

(** The upload loop of [cmd_post_multi_image]; [i] is the 0-based index. *)
Fixpoint upload_images (token urn : string) (total i : nat) (paths : list string)
    : M (list json) :=
  match paths with
  | [] => ret []
  | img_path :: rest =>
      print_err ("UPLOADING=" ++ Zstr (Z.of_nat (i + 1)) ++ "/" ++
                 Zstr (Z.of_nat total) ++ " " ++ img_path) ;;;
      image_urn <- upload_image token urn img_path ;;
      urns <- upload_images token urn total (S i) rest ;;
      ret (image_urn :: urns)
  end%list.

Fixpoint print_image_urns (i : nat) (urns : list json) : M unit :=
  match urns with
  | [] => ret tt
  | u :: rest =>
      print_out ("IMAGE_" ++ Zstr (Z.of_nat (i + 1)) ++ "_URN=" ++ json_str u) ;;;
      print_image_urns (S i) rest
  end%list.

Fixpoint images_payload (i : nat) (alt_texts : list string) (urns : list json)
    : list json :=
  match urns with
  | [] => []
  | u :: rest =>
      (if (i <? length alt_texts)%nat
       then JObj [("id", u); ("altText", JStr (nth i alt_texts EmptyString))]
       else JObj [("id", u)]) :: images_payload (S i) alt_texts rest
  end%list.

Definition cmd_post_multi_image (args : multi_image_args) : M unit :=
  settings <- load_settings ;;
  token <- dict_index settings "access_token" ;;
  urn <- dict_index settings "person_urn" ;;
  text <- resolve_text (ma_text args) (ma_text_file args) ;;
  validate_text_length text 3000 ;;;
  if (length (ma_images args) <? 2)%nat then
    print_err "ERROR=Multi-image posts require at least 2 images." ;;;
    sys_exit 1
  else
    image_urns <- upload_images token urn (length (ma_images args)) 0 (ma_images args) ;;
    if ma_preview args then
      print_out ("PREVIEW=Multi-image post (" ++ Zstr (Z.of_nat (length image_urns)) ++
                 " images uploaded)") ;;;
      print_image_urns 0 image_urns ;;;
      print_out ("TEXT_LENGTH=" ++ Zstr (Z.of_nat (String.length text)) ++ " chars") ;;;
      print_out ("TEXT_START=" ++ py_head 120 text ++ "...") ;;;
      print_out "COMPOSE_URL=https://www.linkedin.com/feed/?shareActive=true" ;;;
      print_out ("NOTE=Images uploaded to LinkedIn. To use them: compose a new post in " ++
                 "LinkedIn's web UI, paste your text, and the uploaded images will be " ++
                 "available in your media library.")
    else
      let alt_texts := match ma_alt_texts args with Some l => l | None => [] end in
      let content := JObj [("multiImage",
                            JObj [("images", JArr (images_payload 0 alt_texts image_urns))])]%list in
      post_id <- create_post token urn text (Some content) (ma_visibility args) ;;
      print_out ("SUCCESS=Post with " ++ Zstr (Z.of_nat (length image_urns)) ++
                 " images created") ;;;
      print_out ("POST_ID=" ++ post_id).

Definition cmd_get_post (post_id : string) : M unit :=
  settings <- load_settings ;;
  token <- dict_index settings "access_token" ;;
  let headers := get_api_headers token in
  let encoded_urn := url_quote post_id in
  resp <- catch_sysexit
            (api_request "GET" (API_BASE ++ "/posts/" ++ encoded_urn) headers None None)
            (print_err ("VERIFY_FAILED=GET /posts requires additional API " ++
                        "permissions (r_member_social).") ;;;
             print_err ("VERIFY_FAILED=Cannot read post back to verify. " ++
                        "Check manually on LinkedIn.") ;;;
             sys_exit 0) ;;
  c <- json_get (ar_body resp) "commentary" ;;
  let commentary := match c with Some j => json_str j | None => EmptyString end in
  print_out ("COMMENTARY_LENGTH=" ++ Zstr (Z.of_nat (String.length commentary))) ;;;
  print_out ("COMMENTARY_START=" ++ py_head 100 commentary) ;;;
  print_out ("COMMENTARY_END=" ++ py_tail 100 commentary) ;;;
  print_out ("FULL_COMMENTARY=" ++ commentary).

(** [c.get(k, {})] and [c.get(k, default)] on a comment object. *)
Definition json_get_or (j : json) (k : string) (d : json) : M json :=
  v <- json_get j k ;; ret (match v with Some x => x | None => d end).

Fixpoint print_comments (i total : nat) (comments : list json) : M unit :=
  match comments with
  | [] => ret tt
  | comment :: rest =>
      actor <- json_get_or comment "actor" (JStr "unknown") ;;
      message <- json_get_or comment "message" (JObj []) ;;
      text <- json_get_or message "text" (JStr EmptyString) ;;
      comment_urn <- json_get_or comment "commentUrn" (JStr EmptyString) ;;
      comment_id <- json_get_or comment "id" (JStr EmptyString) ;;
      created <- json_get_or comment "created" (JObj []) ;;
      created_ms <- json_get_or created "time" (JNum 0) ;;
      created_str <- (if json_truthy created_ms
                      then match created_ms with
                           | JNum ms => localtime_str (ms / 1000)
                           | _ => throw (Raised "TypeError")
                           end
                      else ret "unknown") ;;
      likes_summary <- json_get_or comment "likesSummary" (JObj []) ;;
      likes <- json_get_or likes_summary "totalLikes" (JNum 0) ;;
      print_out ("---COMMENT_" ++ Zstr (Z.of_nat (i + 1)) ++ "/" ++
                 Zstr (Z.of_nat total) ++ "---") ;;;
      print_out ("ACTOR=" ++ json_str actor) ;;;
      print_out ("COMMENT_URN=" ++ json_str comment_urn) ;;;
      print_out ("COMMENT_ID=" ++ json_str comment_id) ;;;
      print_out ("CREATED=" ++ created_str) ;;;
      print_out ("LIKES=" ++ json_str likes) ;;;
      print_out ("TEXT=" ++ json_str text) ;;;
      print_comments (S i) total rest
  end%list.

Definition list_comments_url (post_urn : string) (start count : Z) : string :=
  let encoded_urn := url_quote post_urn in
  API_BASE ++ "/socialActions/" ++ encoded_urn ++ "/comments?start=" ++
  Zstr start ++ "&count=" ++ Zstr count.

Definition cmd_list_comments (post_urn : string) (start count : Z) : M unit :=
  settings <- load_settings ;;
  token <- dict_index settings "access_token" ;;
  let headers := get_api_headers token in
  let url := list_comments_url post_urn start count in
  resp <- catch_sysexit
            (api_request "GET" url headers None None)
            (print_err ("LIST_FAILED=Reading comments requires r_member_social " ++
                        "scope (restricted).") ;;;
             print_err ("LIST_FAILED=This scope is only available to select " ++
                        "LinkedIn API partners.") ;;;
             print_err ("LIST_FAILED=View comments on LinkedIn's website instead. " ++
                        "Writing comments (create-comment, reply-comment) still " ++
                        "works with w_member_social.") ;;;
             sys_exit 1) ;;
  elements <- json_get_or (ar_body resp) "elements" (JArr []) ;;
  if negb (json_truthy elements) then
    print_out "NO_COMMENTS=No comments found on this post"
  else
    match elements with
    | JArr comments =>
        print_out ("COMMENT_COUNT=" ++ Zstr (Z.of_nat (length comments))) ;;;
        print_comments 0 (length comments) comments
    | _ => throw (Raised "TypeError")
    end.

(* ------------------------------------------------------------------ *)
(** ** OAuth callback (oauth-server.py) *)

(** [parse_qs(query)] from the decoded [name=value] pairs of the query in
    their order ([parse_qsl]); pairs with a blank value are dropped. *)
Definition parse_qs (pairs : list (string * string)) : gmap string (list string) :=
  fold_left (fun params '(k, v) =>
               if String.eqb v EmptyString then params
               else <[k := (match params !! k with Some l => l | None => [] end
                            ++ [v])%list]> params) pairs ∅.

(** [params.get(k, [d])[0]] *)
Definition param_first (params : gmap string (list string)) (k d : string) : string :=
  match params !! k with
  | Some (v :: _) => v
  | _ => d
  end%list.

(** The attributes of the [HTTPServer] object the handler writes to. *)
Record oauth_server : Type := mk_server {
  expected_state : string;
  auth_result : option (gmap string string) }.

(** What [do_GET] sends back to the browser. *)
Record http_reply : Type := mk_reply {
  reply_status : Z;
  reply_body : string }.

Definition do_GET (query : list (string * string)) (srv : oauth_server)
    : http_reply * oauth_server :=
  let params := parse_qs query in
  if negb (bool_decide (is_Some (params !! "code"))) then
    let error := param_first params "error" "unknown" in
    let error_desc := param_first params "error_description" "No details" in
    (mk_reply 400 ("<h2>Authorization failed</h2><p>" ++ error ++ ": " ++
                   error_desc ++ "</p>"),
     mk_server (expected_state srv)
       (Some (<["error" := error]> (<["error_description" := error_desc]> ∅))))
  else
    let state := param_first params "state" EmptyString in
    if negb (String.eqb state (expected_state srv)) then
      (mk_reply 400 "<h2>State mismatch - possible CSRF attack</h2>",
       mk_server (expected_state srv) (Some (<["error" := "state_mismatch"]> ∅)))
    else
      let code := param_first params "code" EmptyString in
      (mk_reply 200 ("<h2>Authorization successful!</h2>" ++
                     "<p>You can close this tab and return to Claude Code.</p>"),
       mk_server (expected_state srv) (Some (<["code" := code]> ∅))).

(** Lines 172-179 of [run_oauth_flow]: the check of [server.auth_result]
    after the one request; it returns the code the flow goes on with. *)
Definition take_auth_result (result : option (gmap string string)) : M string :=
  match result with
  | Some r =>
      if bool_decide (r = ∅) then
        print_out "ERROR=no_response " ;;; sys_exit 1
      else if bool_decide (is_Some (r !! "error")) then
        let error := dict_get r "error" "unknown" in
        let desc := dict_get r "error_description" EmptyString in
        print_out ("ERROR=" ++ error ++ " " ++ desc) ;;; sys_exit 1
      else dict_index r "code"
  | None => print_out "ERROR=no_response " ;;; sys_exit 1
  end.

(** The callback step of [run_oauth_flow]: a fresh server with the
    generated [state], one request, then the check of its result. *)
Definition oauth_callback (state : string) (query : list (string * string)) : M string :=
  let '(_, srv) := do_GET query (mk_server state None) in
  take_auth_result (auth_result srv).

(* ================================================================== *)
(** * The remaining commands and the OAuth flow *)

(* ------------------------------------------------------------------ *)
(** ** Commands of linkedin-api.py *)

Definition COMPOSE_URL_LINE : string :=
  "COMPOSE_URL=https://www.linkedin.com/feed/?shareActive=true".

(** [int(settings.get("token_expires_at", 0))] *)
Definition settings_expires_at (settings : gmap string string) : M Z :=
  match settings !! "token_expires_at" with
  | None => ret 0%Z
  | Some v => match py_int v with
              | Some z => ret z
              | None => throw (Raised "ValueError")
              end
  end.

(** [cmd_check_auth]; [//] on integers is [Z.div] (floor division). *)
Definition cmd_check_auth : M unit :=
  settings <- load_settings ;;
  expires_at <- settings_expires_at settings ;;
  now <- time_time ;;
  let remaining := (expires_at - now)%Z in
  let days_left := (remaining / 86400)%Z in
  print_out "AUTHENTICATED=true" ;;;
  person_urn <- dict_index settings "person_urn" ;;
  print_out ("PERSON_URN=" ++ person_urn) ;;;
  print_out ("DISPLAY_NAME=" ++ dict_get settings "display_name" "Unknown") ;;;
  print_out ("TOKEN_DAYS_LEFT=" ++ Zstr days_left).

Definition cmd_post_text (text text_file : option string) (visibility : string)
    (preview : bool) : M unit :=
  settings <- load_settings ;;
  text <- resolve_text text text_file ;;
  validate_text_length text 3000 ;;;
  if preview then
    print_out "PREVIEW=Text-only post (no media to upload)" ;;;
    print_out ("TEXT_LENGTH=" ++ Zstr (Z.of_nat (String.length text)) ++ " chars") ;;;
    print_out ("TEXT_START=" ++ py_head 120 text ++ "...") ;;;
    print_out COMPOSE_URL_LINE
  else
    token <- dict_index settings "access_token" ;;
    urn <- dict_index settings "person_urn" ;;
    post_id <- create_post token urn text None visibility ;;
    print_out "SUCCESS=Post created" ;;;
    print_out ("POST_ID=" ++ post_id).

(** [cmd_post_image]; [images] is [args.images] ([nargs=1]). *)
Definition cmd_post_image (text text_file : option string) (images : list string)
    (title visibility : string) (preview : bool) : M unit :=
  settings <- load_settings ;;
  token <- dict_index settings "access_token" ;;
  urn <- dict_index settings "person_urn" ;;
  text <- resolve_text text text_file ;;
  validate_text_length text 3000 ;;;
  image_path <- (match images with
                 | p :: _ => ret p
                 | [] => throw (Raised "IndexError")
                 end)%list ;;
  image_urn <- upload_image token urn image_path ;;
  print_err ("IMAGE_URN=" ++ json_str image_urn) ;;;
  if preview then
    print_out "PREVIEW=Single image post" ;;;
    print_out ("IMAGE_URN=" ++ json_str image_urn) ;;;
    print_out ("TEXT_LENGTH=" ++ Zstr (Z.of_nat (String.length text)) ++ " chars") ;;;
    print_out ("TEXT_START=" ++ py_head 120 text ++ "...") ;;;
    print_out COMPOSE_URL_LINE ;;;
    print_out ("NOTE=Image uploaded. Paste text and attach uploaded image via " ++
               "LinkedIn web UI.")
  else
    let content := JObj [("media", JObj [("id", image_urn); ("title", JStr title)])]%list in
    post_id <- create_post token urn text (Some content) visibility ;;
    print_out "SUCCESS=Post with image created" ;;;
    print_out ("POST_ID=" ++ post_id).

(** [if s:] on a string argument. *)
Definition nonblank (s : string) : bool := negb (String.eqb s EmptyString).

Definition cmd_post_article (text text_file : option string)
    (url title description thumbnail visibility : string) (preview : bool) : M unit :=
  settings <- load_settings ;;
  token <- dict_index settings "access_token" ;;
  urn <- dict_index settings "person_urn" ;;
  text <- resolve_text text text_file ;;
  validate_text_length text 3000 ;;;
  if preview then
    thumbnail_urn <- (if nonblank thumbnail
                      then u <- upload_image token urn thumbnail ;; ret (Some u)
                      else ret None) ;;
    print_out "PREVIEW=Article post" ;;;
    print_out ("ARTICLE_URL=" ++ url) ;;;
    (if nonblank title then print_out ("ARTICLE_TITLE=" ++ title) else ret tt) ;;;
    (match thumbnail_urn with
     | Some u => if json_truthy u then print_out ("THUMBNAIL_URN=" ++ json_str u)
                 else ret tt
     | None => ret tt
     end) ;;;
    print_out ("TEXT_LENGTH=" ++ Zstr (Z.of_nat (String.length text)) ++ " chars") ;;;
    print_out ("TEXT_START=" ++ py_head 120 text ++ "...") ;;;
    print_out COMPOSE_URL_LINE
  else
    let a0 := [("source", JStr url)]%list in
    let a1 := if nonblank title then (a0 ++ [("title", JStr title)])%list else a0 in
    let a2 := if nonblank description
              then (a1 ++ [("description", JStr description)])%list else a1 in
    article <- (if nonblank thumbnail
                then u <- upload_image token urn thumbnail ;;
                     ret (a2 ++ [("thumbnail", u)])%list
                else ret a2) ;;
    let content := JObj [("article", JObj article)]%list in
    post_id <- create_post token urn text (Some content) visibility ;;
    print_out "SUCCESS=Article post created" ;;;
    print_out ("POST_ID=" ++ post_id).







(* ------------------------------------------------------------------ *)
(** ** Token exchange and profile (oauth-server.py) *)

(** [with urlopen(req) as resp: return json.loads(resp.read().decode())];
    an HTTP or connection error propagates, an empty body does not
    decode. *)
Definition urlopen_json (rq : http_request) : M json :=
  r <- urlopen rq ;;
  match r with
  | HttpResp _ _ (Some j) => ret j
  | HttpResp _ _ None => throw (Raised "JSONDecodeError")
  | HttpError _ _ _ => throw (Raised "HTTPError")
  | UrlError _ => throw (Raised "URLError")
  end.

Definition token_request (code client_id client_secret redirect_uri : string)
    : http_request :=
  mk_request "POST" "https://www.linkedin.com/oauth/v2/accessToken"
    [("Content-Type", "application/x-www-form-urlencoded")]%list
    (FormBody [("grant_type", "authorization_code"); ("code", code);
               ("client_id", client_id); ("client_secret", client_secret);
               ("redirect_uri", redirect_uri)]%list).

Definition exchange_code_for_token (code client_id client_secret redirect_uri : string)
    : M json :=
  urlopen_json (token_request code client_id client_secret redirect_uri).

Definition userinfo_request (access_token : string) : http_request :=
  mk_request "GET" "https://api.linkedin.com/v2/userinfo"
    [("Authorization", ("Bearer " ++ access_token)%string)]%list NoBody.

Definition fetch_user_info (access_token : string) : M (json * json) :=
  data <- urlopen_json (userinfo_request access_token) ;;
  person_id <- json_get_or data "sub" (JStr EmptyString) ;;
  name <- json_get_or data "name" (JStr "Unknown") ;;
  ret (person_id, name).

Definition SCOPES : string := "openid profile w_member_social".

(** [str(SETTINGS_PATH)]; the home directory is written [~]. *)
Definition SETTINGS_PATH_STR : string := "~/.claude/linkedin.local.md".

(** [urllib.parse.quote_plus(s)]: as [quote(s, safe='')], with a space
    written [+]. *)
Fixpoint quote_plus (s : string) : string :=
  match s with
  | EmptyString => EmptyString
  | String c s' =>
      (if Ascii.eqb c " "%char then "+" else quote_char c) ++ quote_plus s'
  end.

(** [urllib.parse.urlencode(fields)] *)
Definition urlencode (fields : list (string * string)) : string :=
  String.concat "&" (map (fun '(k, v) => quote_plus k ++ "=" ++ quote_plus v) fields).

(** [run_oauth_flow] after [code = result["code"]]. *)
Definition oauth_exchange (client_id client_secret redirect_uri code : string) : M unit :=
  print_out "STATUS=exchanging_token" ;;;
  token_data <- exchange_code_for_token code client_id client_secret redirect_uri ;;
  access_token <- json_index token_data "access_token" ;;
  expires_in <- json_get_or token_data "expires_in" (JNum 5184000) ;;
  print_out "STATUS=fetching_profile" ;;;
  profile <- fetch_user_info (json_str access_token) ;;
  let '(person_id, display_name) := profile in
  let person_urn := "urn:li:person:" ++ json_str person_id in
  (match expires_in with
   | JNum n => save_settings client_id client_secret (json_str access_token) person_urn
                 (json_str display_name) n
   | _ => throw (Raised "TypeError")
   end) ;;;
  print_out ("SUCCESS=Authenticated as " ++ json_str display_name ++ " (" ++
             person_urn ++ ")") ;;;
  print_out ("TOKEN_EXPIRES_IN=" ++ json_str expires_in) ;;;
  print_out ("SETTINGS_PATH=" ++ SETTINGS_PATH_STR).

(** [run_oauth_flow(client_id, client_secret, port)]: [state] is the value
    [secrets.token_urlsafe(32)] returned and [query] the query of the one
    request the server handles; opening the browser has no modelled
    effect. *)
Definition run_oauth_flow (client_id client_secret : string) (port : Z)
    (state : string) (query : list (string * string)) : M unit :=
  let redirect_uri := "http://localhost:" ++ Zstr port ++ "/callback" in
  let auth_url := "https://www.linkedin.com/oauth/v2/authorization?" ++
    urlencode [("response_type", "code"); ("client_id", client_id);
               ("redirect_uri", redirect_uri); ("state", state);
               ("scope", SCOPES)]%list in
  print_out ("OAUTH_URL=" ++ auth_url) ;;;
  print_out ("REDIRECT_URI=" ++ redirect_uri) ;;;
  print_out "STATUS=waiting_for_callback" ;;;
  code <- oauth_callback state query ;;
  oauth_exchange client_id client_secret redirect_uri code.

(* ================================================================== *)
(** * Properties *)

(** ** Auxiliary facts on the callback handler *)

Lemma take_auth_result_error (r : gmap string string) (e : string) w :
  r !! "error" = Some e ->
  take_auth_result (Some r) w =
    (Exc (SysExit 1),
     add_stdout ("ERROR=" ++ e ++ " " ++ dict_get r "error_description" EmptyString) w).
Proof.
  intros He. unfold take_auth_result.
  rewrite bool_decide_eq_false_2.
  2:{ intros ->. rewrite lookup_empty in He. discriminate. }
  rewrite bool_decide_eq_true_2 by (rewrite He; eauto).
  unfold dict_get at 1. rewrite He. reflexivity.
Qed.

Lemma take_auth_result_code (c : string) w :
  take_auth_result (Some (<["code" := c]> ∅)) w = (Ok c, w).
Proof.
  unfold take_auth_result.
  rewrite bool_decide_eq_false_2 by apply insert_non_empty.
  rewrite bool_decide_eq_false_2.
  2:{ rewrite lookup_insert_ne by done. rewrite lookup_empty. intros [? [=]]. }
  unfold dict_index. rewrite lookup_insert_eq. reflexivity.
Qed.

(** ** C1: a forged [state] never yields a code *)

(** C1 (corrected). For every callback whose [state] parameter differs
    from the generated token, the handler answers 400 and records an
    error outcome without any code, and the flow exits with status 1;
    the recorded error is [state_mismatch] when a [code] parameter is
    present (with no description), and otherwise the [error] parameter
    (default [unknown]) with its [error_description] (default [No
    details]), since the handler checks for a code before it checks the
    state. *)
Lemma do_GET_state_mismatch (query : list (string * string)) (state : string) (w : world) :
  param_first (parse_qs query) "state" EmptyString <> state ->
  reply_status (fst (do_GET query (mk_server state None))) = 400%Z /\
  (exists r : gmap string string,
     auth_result (snd (do_GET query (mk_server state None))) = Some r /\
     r !! "code" = None /\
     r !! "error" =
       Some (if bool_decide (is_Some (parse_qs query !! "code"))
             then "state_mismatch"
             else param_first (parse_qs query) "error" "unknown") /\
     r !! "error_description" =
       (if bool_decide (is_Some (parse_qs query !! "code"))
        then None
        else Some (param_first (parse_qs query) "error_description" "No details"))) /\
  exit_code (fst (oauth_callback state query w)) = 1%Z.
Proof.
  intros Hst. unfold oauth_callback, do_GET.
  destruct (bool_decide (is_Some (parse_qs query !! "code"))) eqn:Hc;
    cbn -[take_auth_result].
  - destruct (String.eqb_spec (param_first (parse_qs query) "state" EmptyString) state)
      as [E|_]; [contradiction|]. cbn -[take_auth_result].
    split; [reflexivity|]. split.
    + eexists; split; [reflexivity|].
      rewrite lookup_insert_ne by done. rewrite lookup_empty.
      split; [reflexivity|]. split; [apply lookup_insert_eq|].
      rewrite lookup_insert_ne by done. apply lookup_empty.
    + rewrite (take_auth_result_error _ "state_mismatch") by apply lookup_insert_eq.
      reflexivity.
  - split; [reflexivity|]. split.
    + eexists; split; [reflexivity|].
      rewrite !lookup_insert_ne by done. rewrite lookup_empty.
      split; [reflexivity|]. split; [apply lookup_insert_eq|].
      rewrite lookup_insert_ne by done. apply lookup_insert_eq.
    + rewrite (take_auth_result_error _ (param_first (parse_qs query) "error" "unknown"))
        by apply lookup_insert_eq.
      reflexivity.
Qed.

(** A world with no settings file, no files and no reachable network. *)
Definition idle_world : world :=
  mk_world None 0 (fun _ => EmptyString) (fun _ => None)
    (fun _ _ => UrlError "unreachable") [] [] [].

Lemma do_GET_state_mismatch_witness :
  "forged" <> "tok" /\
  reply_status (fst (do_GET [("code", "abc"); ("state", "forged")]%list
                            (mk_server "tok" None))) = 400%Z.
Proof.
  split; [discriminate|].
  apply (do_GET_state_mismatch [("code", "abc"); ("state", "forged")]%list "tok" idle_world).
  vm_compute. discriminate.
Defined.

(** C1 counterexample: a callback with a forged [state] and no [code]
    records the error [unknown], not [state_mismatch]. *)
Lemma do_GET_forged_state_without_code :
  "forged" <> "tok" /\
  match auth_result (snd (do_GET [("state", "forged")]%list (mk_server "tok" None))) with
  | Some r => r !! "error" = Some "unknown" /\ r !! "error" <> Some "state_mismatch"
  | None => False
  end.
Proof.
  split; [discriminate|]. vm_compute. split; [reflexivity | discriminate].
Qed.

(** ** C3: the [error] parameter of the callback *)

(** C3 (corrected). The handler keys its failure branch on the absence of
    a [code] parameter, not on the presence of [error]: with no (non-blank)
    [code], it answers 400, records the [error] parameter (default
    [unknown]) with its [error_description] (default [No details]), and
    the flow exits with status 1 printing both; with a [code] and a
    matching [state], the code is recorded and the flow goes on, whether
    or not an [error] parameter is present. *)
Lemma do_GET_error_outcome (query : list (string * string)) (state : string) (w : world) :
  (parse_qs query !! "code" = None ->
   let error := param_first (parse_qs query) "error" "unknown" in
   let error_desc := param_first (parse_qs query) "error_description" "No details" in
   do_GET query (mk_server state None) =
     (mk_reply 400 ("<h2>Authorization failed</h2><p>" ++ error ++ ": " ++
                    error_desc ++ "</p>"),
      mk_server state (Some (<["error" := error]> (<["error_description" := error_desc]> ∅)))) /\
   oauth_callback state query w =
     (Exc (SysExit 1), add_stdout ("ERROR=" ++ error ++ " " ++ error_desc) w)) /\
  (is_Some (parse_qs query !! "code") ->
   param_first (parse_qs query) "state" EmptyString = state ->
   let code := param_first (parse_qs query) "code" EmptyString in
   auth_result (snd (do_GET query (mk_server state None))) = Some (<["code" := code]> ∅) /\
   oauth_callback state query w = (Ok code, w)).
Proof.
  split.
  - intros Hc. cbn zeta.
    assert (Hd : do_GET query (mk_server state None) =
      (mk_reply 400 ("<h2>Authorization failed</h2><p>" ++
                     param_first (parse_qs query) "error" "unknown" ++ ": " ++
                     param_first (parse_qs query) "error_description" "No details" ++ "</p>"),
       mk_server state (Some (<["error" := param_first (parse_qs query) "error" "unknown"]>
          (<["error_description" :=
               param_first (parse_qs query) "error_description" "No details"]> ∅))))).
    { unfold do_GET. rewrite Hc. reflexivity. }
    split; [exact Hd|].
    unfold oauth_callback. rewrite Hd. cbn -[take_auth_result].
    rewrite (take_auth_result_error _ (param_first (parse_qs query) "error" "unknown"))
      by apply lookup_insert_eq.
    unfold dict_get. rewrite lookup_insert_ne by done. rewrite lookup_insert_eq.
    reflexivity.
  - intros Hc Hs. cbn zeta.
    assert (Hd : auth_result (snd (do_GET query (mk_server state None))) =
                 Some (<["code" := param_first (parse_qs query) "code" EmptyString]> ∅)).
    { unfold do_GET. rewrite bool_decide_eq_true_2 by exact Hc. cbn.
      rewrite Hs, String.eqb_refl. reflexivity. }
    split; [exact Hd|].
    unfold oauth_callback.
    destruct (do_GET query (mk_server state None)) as [rep srv] eqn:E.
    simpl in Hd. rewrite Hd. apply take_auth_result_code.
Qed.

Lemma do_GET_error_outcome_witness :
  auth_result (snd (do_GET [("error", "access_denied")]%list (mk_server "tok" None))) =
    Some (<["error" := "access_denied"]> (<["error_description" := "No details"]> ∅)) /\
  oauth_callback "tok" [("code", "abc"); ("state", "tok")]%list idle_world =
    (Ok "abc", idle_world).
Proof.
  split.
  - destruct (do_GET_error_outcome [("error", "access_denied")]%list "tok" idle_world)
      as [H _].
    destruct H as [H _]; [vm_compute; reflexivity|].
    rewrite H. reflexivity.
  - destruct (do_GET_error_outcome [("code", "abc"); ("state", "tok")]%list "tok" idle_world)
      as [_ H].
    destruct H as [_ H]; [vm_compute; eauto | vm_compute; reflexivity |].
    exact H.
Defined.

(** C3 counterexample: a callback that carries [error] together with a
    [code] and the right [state] is accepted: the code is recorded and
    the flow continues with it. *)
Lemma do_GET_error_with_code_accepted :
  auth_result (snd (do_GET [("code", "abc"); ("state", "tok"); ("error", "access_denied")]%list
                           (mk_server "tok" None))) = Some (<["code" := "abc"]> ∅) /\
  oauth_callback "tok" [("code", "abc"); ("state", "tok"); ("error", "access_denied")]%list
    idle_world = (Ok "abc", idle_world).
Proof. split; vm_compute; reflexivity. Qed.

(** ** C6: the text-length pre-check *)

(** C6. With the 3000-character threshold, the pre-check returns normally
    in both cases: for a text longer than 3000 characters it prints the
    truncation-risk warning and the recommendation to standard error and
    returns [false]; otherwise it prints only the informational
    [TEXT_LENGTH] line and returns [true]. *)
Lemma validate_text_length_3000 (text : string) (w : world) :
  validate_text_length text 3000 w =
    if (3000 <? String.length text)%nat then
      (Ok false,
       add_stderr ("RECOMMEND=Use --preview to upload images without posting, " ++
                   "then paste text via LinkedIn's web UI.")
         (add_stderr ("WARNING=Text is " ++ Zstr (Z.of_nat (String.length text)) ++
                      " chars, exceeds LinkedIn's ~3000 char limit. " ++
                      "Post may be silently truncated by the API.") w))
    else
      (Ok true,
       add_stderr ("TEXT_LENGTH=" ++ Zstr (Z.of_nat (String.length text)) ++
                   " chars (limit ~3000)") w).
Proof.
  unfold validate_text_length.
  destruct (3000 <? String.length text)%nat; reflexivity.
Qed.

(** ** C7: the post-text verification *)

Definition get_post_request (access_token post_id : string) : http_request :=
  mk_request "GET" (API_BASE ++ "/posts/" ++ url_quote post_id)
    (get_api_headers access_token) NoBody.

(** C7. When the re-fetch of the post returns a commentary [stored]
    shorter than the submitted [text], the verification prints, and
    returns normally, the truncation warning with both lengths and the
    percentage [stored * 100 / sent] rounded down, the last 80 characters
    of [stored] and the remediation hint; when [stored] is at least as
    long, it prints only the [VERIFIED] line. *)
Lemma verify_post_text_truncation (access_token post_id text stored : string)
    (w : world) (status : Z) (hs : list (string * string))
    (members : list (string * json)) :
  w_net w (length (w_calls w)) (get_post_request access_token post_id) =
    HttpResp status hs (Some (JObj members)) ->
  obj_lookup "commentary" members = Some (JStr stored) ->
  let w1 := add_call (get_post_request access_token post_id) w in
  let sent_len := String.length text in
  let stored_len := String.length stored in
  verify_post_text access_token post_id text w =
    if (stored_len <? sent_len)%nat then
      (Ok tt,
       add_stderr ("WARNING=Edit the post via LinkedIn web UI to fix the text. " ++
                   "The REST API PARTIAL_UPDATE is unreliable for commentary.")
         (add_stderr ("TRUNCATED_AT=" ++ py_tail 80 stored)
            (add_stderr ("WARNING=Text truncated by LinkedIn API: sent " ++
                         Zstr (Z.of_nat sent_len) ++ " chars, stored " ++
                         Zstr (Z.of_nat stored_len) ++ " chars (" ++
                         Zstr (Z.of_nat (stored_len * 100 / sent_len)) ++ "%)") w1)))
    else
      (Ok tt,
       add_stderr ("VERIFIED=Post text intact (" ++ Zstr (Z.of_nat stored_len) ++
                   " chars)") w1).
Proof.
  intros Hnet Hc. cbn zeta.
  unfold verify_post_text, catch_sysexit, bind at 1, api_request, bind at 1.
  unfold urlopen. fold (get_post_request access_token post_id).
  rewrite Hnet. cbn -[add_stderr add_call py_tail Zstr get_post_request Nat.ltb].
  rewrite Hc. cbn -[add_stderr add_call py_tail Zstr get_post_request Nat.ltb].
  destruct (String.length stored <? String.length text)%nat; reflexivity.
Qed.

Fixpoint str_repeat (n : nat) (c : ascii) : string :=
  match n with
  | O => EmptyString
  | S n' => String c (str_repeat n' c)
  end.

(** A world whose server stores [stored] as the commentary of every post. *)
Definition storing_world (stored : string) : world :=
  mk_world None 0 (fun _ => EmptyString) (fun _ => None)
    (fun _ _ => HttpResp 200 [] (Some (JObj [("commentary", JStr stored)])))
    [] [] [].

Lemma verify_post_text_truncation_witness :
  exists w' : world,
    verify_post_text "tok" "urn:li:share:1" (str_repeat 500 "a"%char)
      (storing_world (str_repeat 400 "a"%char)) = (Ok tt, w') /\
    py_in "(80%)" (nth 0 (w_stderr w') EmptyString) = true /\
    nth 1 (w_stderr w') EmptyString = "TRUNCATED_AT=" ++ str_repeat 80 "a"%char.
Proof.
  rewrite (verify_post_text_truncation "tok" "urn:li:share:1" (str_repeat 500 "a"%char)
             (str_repeat 400 "a"%char) (storing_world (str_repeat 400 "a"%char)) 200 []
             [("commentary", JStr (str_repeat 400 "a"%char))]%list);
    [| reflexivity | reflexivity].
  eexists. split; [reflexivity|]. split; vm_compute; reflexivity.
Defined.

(** ** Reading the post identifier from the response headers *)

Lemma headers_dict_go (hs0 l : list (string * string)) (m : gmap string string) (k : string) :
  fold_left (fun m '(k', _) =>
               match msg_get hs0 k' with
               | Some v => <[k' := v]> m
               | None => m
               end) l m !! k =
  if existsb (fun '(k', _) => String.eqb k' k) l
  then match msg_get hs0 k with Some v => Some v | None => m !! k end
  else m !! k.
Proof.
  revert m. induction l as [|[k' v'] l IH]; intros m; simpl; [reflexivity|].
  rewrite IH.
  destruct (String.eqb_spec k' k) as [->|Hne]; simpl.
  - destruct (existsb _ l); destruct (msg_get hs0 k) eqn:E;
      rewrite ?lookup_insert_eq; reflexivity.
  - destruct (existsb _ l); destruct (msg_get hs0 k) eqn:E; try reflexivity;
      destruct (msg_get hs0 k'); rewrite ?lookup_insert_ne by congruence; reflexivity.
Qed.

Lemma msg_get_some (hs : list (string * string)) (k : string) :
  existsb (fun '(k', _) => String.eqb k' k) hs = true ->
  exists v, msg_get hs k = Some v.
Proof.
  unfold msg_get. induction hs as [|[k' v'] hs IH]; simpl; [discriminate|].
  destruct (String.eqb_spec k' k) as [->|Hne]; simpl.
  - rewrite String.eqb_refl. eauto.
  - intros H. destruct (String.eqb (py_lower k') (py_lower k)); eauto.
Qed.

Lemma headers_dict_lookup (hs : list (string * string)) (k : string) :
  headers_dict hs !! k =
  if existsb (fun '(k', _) => String.eqb k' k) hs then msg_get hs k else None.
Proof.
  unfold headers_dict. rewrite headers_dict_go, lookup_empty.
  destruct (existsb _ hs) eqn:E; [|reflexivity].
  destruct (msg_get_some hs k E) as [v ->]. reflexivity.
Qed.

(** [create_post] once the server has answered the post request. *)
Lemma create_post_response (access_token person_urn text : string) (content : option json)
    (visibility : string) (w : world) (status : Z) (hs : list (string * string))
    (b : option json) :
  w_net w (length (w_calls w)) (post_request access_token person_urn text content visibility) =
    HttpResp status hs b ->
  let post_id := dict_get (headers_dict hs) "x-restli-id"
                   (dict_get (headers_dict hs) "X-Restli-Id" EmptyString) in
  create_post access_token person_urn text content visibility w =
    ((if negb (String.eqb post_id EmptyString)
      then verify_post_text access_token post_id text
      else ret tt) ;;; ret post_id)
    (add_call (post_request access_token person_urn text content visibility) w).
Proof.
  intros Hnet. cbn zeta.
  unfold create_post, bind at 1, api_request, bind at 1, urlopen.
  fold (post_request access_token person_urn text content visibility).
  rewrite Hnet. reflexivity.
Qed.

(** A world whose server answers every request with the headers [hs]
    and an empty body. *)
Definition answering_world (hs : list (string * string)) : world :=
  mk_world None 0 (fun _ => EmptyString) (fun _ => None)
    (fun _ _ => HttpResp 201 hs None) [] [] [].

(** C9 (code bug). The spec asks for a case-insensitive lookup of the id
    header, but [create_post] looks in [dict(resp.headers)] under exactly
    the two names [x-restli-id] and [X-Restli-Id]. When the response
    carries the id header, with a non-empty value, only under another
    casing (such as [X-RESTLI-ID]), the identifier is the empty string:
    [create_post] returns it after the post request alone, and the post is
    never verified. *)
Lemma create_post_id_case_sensitive (access_token person_urn text : string)
    (content : option json) (visibility : string) (w : world) (status : Z)
    (hs : list (string * string)) (b : option json) (k v : string) :
  w_net w (length (w_calls w)) (post_request access_token person_urn text content visibility) =
    HttpResp status hs b ->
  In (k, v) hs -> py_lower k = "x-restli-id" -> v <> EmptyString ->
  (forall k' v', In (k', v') hs -> k' <> "x-restli-id" /\ k' <> "X-Restli-Id") ->
  create_post access_token person_urn text content visibility w =
    (Ok EmptyString,
     add_call (post_request access_token person_urn text content visibility) w).
Proof.
  intros Hnet _ _ _ Hno. rewrite (create_post_response _ _ _ _ _ _ status hs b Hnet).
  cbn zeta. unfold dict_get. rewrite !headers_dict_lookup.
  assert (Hx : forall k0, (k0 = "x-restli-id" \/ k0 = "X-Restli-Id") ->
                 existsb (fun '(k, _) => String.eqb k k0) hs = false).
  { intros k0 Hk0. apply Bool.not_true_iff_false. intros Hex.
    apply existsb_exists in Hex as [[k' v'] [Hin Hk]].
    apply String.eqb_eq in Hk. subst k'.
    destruct (Hno k0 v' Hin). destruct Hk0; contradiction. }
  rewrite (Hx "x-restli-id") by auto. rewrite (Hx "X-Restli-Id") by auto.
  reflexivity.
Qed.

Lemma create_post_id_case_sensitive_witness :
  create_post "tok" "urn:li:person:1" "hi" None "PUBLIC"
    (answering_world [("X-RESTLI-ID", "urn:li:share:7")]%list) =
  (Ok EmptyString,
   add_call (post_request "tok" "urn:li:person:1" "hi" None "PUBLIC")
     (answering_world [("X-RESTLI-ID", "urn:li:share:7")]%list)).
Proof.
  apply (create_post_id_case_sensitive "tok" "urn:li:person:1" "hi" None "PUBLIC"
           (answering_world [("X-RESTLI-ID", "urn:li:share:7")]%list) 201
           [("X-RESTLI-ID", "urn:li:share:7")]%list None "X-RESTLI-ID" "urn:li:share:7").
  - reflexivity.
  - left. reflexivity.
  - vm_compute. reflexivity.
  - discriminate.
  - intros k' v' [H|[]]. inversion H. split; discriminate.
Defined.

(** ** C10: no id header, no verification *)

(** C10. When no response header is named exactly [x-restli-id] or
    [X-Restli-Id], [create_post] returns the empty string after the post
    request alone: the verification re-fetch is never sent. *)
Lemma create_post_no_restli_header (access_token person_urn text : string)
    (content : option json) (visibility : string) (w : world) (status : Z)
    (hs : list (string * string)) (b : option json) :
  w_net w (length (w_calls w)) (post_request access_token person_urn text content visibility) =
    HttpResp status hs b ->
  (forall k v, In (k, v) hs -> k <> "x-restli-id" /\ k <> "X-Restli-Id") ->
  create_post access_token person_urn text content visibility w =
    (Ok EmptyString,
     add_call (post_request access_token person_urn text content visibility) w).
Proof.
  intros Hnet Hno. rewrite (create_post_response _ _ _ _ _ _ status hs b Hnet).
  cbn zeta. unfold dict_get. rewrite !headers_dict_lookup.
  assert (Hx : forall k0, (k0 = "x-restli-id" \/ k0 = "X-Restli-Id") ->
                 existsb (fun '(k, _) => String.eqb k k0) hs = false).
  { intros k0 Hk0. apply Bool.not_true_iff_false. intros Hex.
    apply existsb_exists in Hex as [[k v] [Hin Hk]].
    apply String.eqb_eq in Hk. subst k.
    destruct (Hno k0 v Hin). destruct Hk0; contradiction. }
  rewrite (Hx "x-restli-id") by auto. rewrite (Hx "X-Restli-Id") by auto.
  reflexivity.
Qed.

Lemma create_post_no_restli_header_witness :
  create_post "tok" "urn:li:person:1" "hi" None "PUBLIC"
    (answering_world [("Content-Type", "application/json")]%list) =
  (Ok EmptyString,
   add_call (post_request "tok" "urn:li:person:1" "hi" None "PUBLIC")
     (answering_world [("Content-Type", "application/json")]%list)).
Proof.
  apply (create_post_no_restli_header "tok" "urn:li:person:1" "hi" None "PUBLIC"
           (answering_world [("Content-Type", "application/json")]%list) 201
           [("Content-Type", "application/json")]%list None).
  - reflexivity.
  - intros k v [Hk | []]. injection Hk as <- <-. split; discriminate.
Defined.

(** ** C8: token expiry in [load_settings] *)

Lemma check_required_ok (keys : list string) (settings : gmap string string) (w : world) :
  (forall k, In k keys -> exists v, settings !! k = Some v /\ v <> EmptyString) ->
  check_required keys settings w = (Ok tt, w).
Proof.
  induction keys as [|k keys IH]; intros Hk; simpl; [reflexivity|].
  destruct (Hk k (or_introl eq_refl)) as [v [Hv Hne]]. rewrite Hv.
  destruct (String.eqb_spec v EmptyString) as [E|_]; [contradiction|].
  apply IH. intros k' Hin. apply Hk. right. exact Hin.
Qed.

Definition expired_message : string :=
  "ERROR=Access token has expired. Run /linkedin:setup to re-authenticate.".

(** C8 (corrected). For a settings file that passes the earlier checks
    (leading marker, non-empty [access_token] and [person_urn]) and whose
    [token_expires_at] is absent (read as 0) or the integer [ea],
    [load_settings] fails with the distinct expired-token message and
    exit status 1 exactly when [ea] is non-zero and strictly less than the
    current time, negative values included; otherwise it returns the
    parsed settings. *)
Lemma load_settings_expiry (w : world) (content x frontmatter : string)
    (rest : list string) (ea : Z) :
  w_settings w = Some content ->
  String.prefix "---" content = true ->
  py_split "---" content = x :: frontmatter :: rest ->
  (forall k, In k ["access_token"; "person_urn"]%list ->
     exists v, parse_frontmatter frontmatter !! k = Some v /\ v <> EmptyString) ->
  match parse_frontmatter frontmatter !! "token_expires_at" with
  | None => ea = 0%Z
  | Some v => py_int v = Some ea
  end ->
  load_settings w =
    if negb (Z.eqb ea 0) && Z.ltb ea (w_clock w)
    then (Exc (SysExit 1), add_stderr expired_message w)
    else (Ok (parse_frontmatter frontmatter), w).
Proof.
  intros Hs Hp Hsplit Hreq Hea.
  unfold load_settings. rewrite Hs, Hp, Hsplit.
  cbn -[check_required parse_frontmatter bind].
  unfold bind at 1. rewrite (check_required_ok _ _ _ Hreq).
  destruct (parse_frontmatter frontmatter !! "token_expires_at") as [v|].
  - rewrite Hea. cbn -[parse_frontmatter].
    destruct (negb (ea =? 0)%Z && (ea <? w_clock w)%Z); reflexivity.
  - subst ea. reflexivity.
Qed.

Definition settings_world (content : string) (clock : Z) : world :=
  mk_world (Some content) clock (fun _ => EmptyString) (fun _ => None)
    (fun _ _ => UrlError "unreachable") [] [] [].

Definition sample_frontmatter (expires : string) : string :=
  nl ++
  "access_token: " ++ quoted "tok" ++ nl ++
  "person_urn: " ++ quoted "urn:li:person:1" ++ nl ++
  "token_expires_at: " ++ expires ++ nl.

Definition sample_settings (expires : string) : string :=
  "---" ++ sample_frontmatter expires ++ "---" ++ nl.

Lemma load_settings_expiry_witness :
  load_settings (settings_world (sample_settings "50") 100) =
    (Exc (SysExit 1), add_stderr expired_message (settings_world (sample_settings "50") 100)).
Proof.
  rewrite (load_settings_expiry (settings_world (sample_settings "50") 100)
             (sample_settings "50") EmptyString
             (sample_frontmatter "50") [nl]%list 50).
  all: try reflexivity.
  intros k [<- | [<- | []]]; eexists; split; try reflexivity; discriminate.
Defined.

(** C8 counterexample: [token_expires_at: -5] is not positive, yet at
    time 100 the token is rejected as expired. *)
Lemma load_settings_negative_expiry_rejected :
  ~ (0 < -5)%Z /\
  load_settings (settings_world (sample_settings "-5") 100) =
    (Exc (SysExit 1), add_stderr expired_message (settings_world (sample_settings "-5") 100)).
Proof. split; [lia | vm_compute; reflexivity]. Qed.

(** ** C2: a permission-restricted comment read *)

Definition list_comments_request (access_token post_urn : string) (start count : Z)
    : http_request :=
  mk_request "GET" (list_comments_url post_urn start count)
    (get_api_headers access_token) NoBody.

(** C2 (failing input). With valid settings, when the server refuses the
    comment read with 403 Forbidden, [list-comments] prints its
    informational [LIST_FAILED] lines and then ends the process with exit
    status 1, while [get-post], refused in the same way, degrades with
    exit status 0. *)
Lemma list_comments_permission_denied (post_urn post_id : string) (start count : Z)
    (w : world) (settings : gmap string string) (token reason error_body : string) :
  load_settings w = (Ok settings, w) ->
  settings !! "access_token" = Some token ->
  w_net w (length (w_calls w)) (list_comments_request token post_urn start count) =
    HttpError 403 reason error_body ->
  w_net w (length (w_calls w)) (get_post_request token post_id) =
    HttpError 403 reason error_body ->
  exit_code (fst (cmd_list_comments post_urn start count w)) = 1%Z /\
  exit_code (fst (cmd_get_post post_id w)) = 0%Z.
Proof.
  intros Hload Htok Hlist Hget. split.
  - unfold cmd_list_comments, bind at 1. rewrite Hload.
    unfold bind at 1, dict_index. rewrite Htok.
    unfold list_comments_request in Hlist.
    unfold catch_sysexit, api_request, urlopen, bind.
    cbn -[add_stderr add_call get_api_headers list_comments_url].
    rewrite Hlist. cbn -[add_stderr add_call get_api_headers list_comments_url].
    destruct (String.eqb error_body EmptyString); reflexivity.
  - unfold cmd_get_post, bind at 1. rewrite Hload.
    unfold bind at 1, dict_index. rewrite Htok.
    unfold get_post_request in Hget.
    unfold catch_sysexit, api_request, urlopen, bind.
    cbn -[add_stderr add_call get_api_headers url_quote API_BASE].
    rewrite Hget. cbn -[add_stderr add_call get_api_headers url_quote API_BASE].
    destruct (String.eqb error_body EmptyString); reflexivity.
Qed.

(** A world with valid settings whose server refuses every request. *)
Definition forbidden_world : world :=
  mk_world (Some (sample_settings "0")) 100 (fun _ => EmptyString) (fun _ => None)
    (fun _ _ => HttpError 403 "Forbidden" EmptyString) [] [] [].

Lemma list_comments_permission_denied_witness :
  exit_code (fst (cmd_list_comments "urn:li:ugcPost:123" 0 20 forbidden_world)) = 1%Z /\
  exit_code (fst (cmd_get_post "urn:li:ugcPost:123" forbidden_world)) = 0%Z.
Proof.
  apply (list_comments_permission_denied "urn:li:ugcPost:123" "urn:li:ugcPost:123" 0 20
           forbidden_world (parse_frontmatter (sample_frontmatter "0")) "tok"
           "Forbidden" EmptyString).
  all: vm_compute; reflexivity.
Defined.

(* ------------------------------------------------------------------ *)
(** ** Which requests a computation sends *)

(** [c] appends to the request log only requests satisfying [P]. *)
Definition sends_only (P : http_request -> Prop) {A} (c : M A) : Prop :=
  forall w, exists rest,
    w_calls (snd (c w)) = (w_calls w ++ rest)%list /\ Forall P rest.

(** [c] never ends in [sys.exit(0)]. *)
Definition no_exit0 {A} (c : M A) : Prop :=
  forall w, fst (c w) <> Exc (SysExit 0).

(** [c] always ends the process with a non-zero status. *)
Definition fails {A} (c : M A) : Prop :=
  forall w, exit_code (fst (c w)) <> 0%Z.

Definition is_get (rq : http_request) : Prop := rq_method rq = "GET".

Definition init_request (access_token person_urn : string) : http_request :=
  mk_request "POST" (API_BASE ++ "/images?action=initializeUpload")
    (get_api_headers access_token)
    (JsonBody (JObj [("initializeUploadRequest",
                      JObj [("owner", JStr person_urn)])]%list)).

Definition put_request (access_token url bytes : string) : http_request :=
  mk_request "PUT" url
    [("Authorization", ("Bearer " ++ access_token)%string);
     ("Content-Type", "application/octet-stream")]%list (RawBody bytes).

(** The answer to [initializeUpload], in its wrapped form. *)
Definition upload_answer (status : Z) (hs : list (string * string))
    (url : string) (image : json) : http_response :=
  HttpResp status hs
    (Some (JObj [("value", JObj [("uploadUrl", JStr url); ("image", image)])]%list)).

Section SendsOnly.
Variable P : http_request -> Prop.

Lemma sends_only_at {A} (c : M A) w :
  sends_only P c ->
  exists rest, w_calls (snd (c w)) = (w_calls w ++ rest)%list /\ Forall P rest.
Proof. intros H. apply H. Qed.

Lemma sends_only_ret {A} (a : A) : sends_only P (ret a).
Proof. intros w. exists []. rewrite app_nil_r. auto. Qed.

Lemma sends_only_throw {A} e : sends_only P (@throw A e).
Proof. intros w. exists []. rewrite app_nil_r. auto. Qed.

Lemma sends_only_sys_exit {A} n : sends_only P (@sys_exit A n).
Proof. apply sends_only_throw. Qed.

Lemma sends_only_print_err l : sends_only P (print_err l).
Proof. intros w. exists []. rewrite app_nil_r. auto. Qed.

Lemma sends_only_print_out l : sends_only P (print_out l).
Proof. intros w. exists []. rewrite app_nil_r. auto. Qed.

Lemma sends_only_read_file p : sends_only P (read_file p).
Proof. intros w. exists []. rewrite app_nil_r. auto. Qed.

Lemma sends_only_time_time : sends_only P time_time.
Proof. intros w. exists []. rewrite app_nil_r. auto. Qed.

Lemma sends_only_urlopen rq : P rq -> sends_only P (urlopen rq).
Proof. intros H w. exists [rq]. auto. Qed.

Lemma sends_only_bind {A B} (c : M A) (k : A -> M B) :
  sends_only P c -> (forall a, sends_only P (k a)) -> sends_only P (bind c k).
Proof.
  intros Hc Hk w. unfold bind. destruct (Hc w) as [r1 [H1 F1]].
  destruct (c w) as [[a|e] w'] eqn:E; simpl in H1.
  - destruct (Hk a w') as [r2 [H2 F2]]. exists (r1 ++ r2)%list.
    rewrite H2, H1, app_assoc. split; [reflexivity | apply Forall_app; auto].
  - exists r1. auto.
Qed.

Lemma sends_only_catch {A} (c h : M A) :
  sends_only P c -> sends_only P h -> sends_only P (catch_sysexit c h).
Proof.
  intros Hc Hh w. unfold catch_sysexit. destruct (Hc w) as [r1 [H1 F1]].
  destruct (c w) as [[a|[n|s]] w'] eqn:E; simpl in H1; try solve [exists r1; auto].
  destruct (Hh w') as [r2 [H2 F2]]. exists (r1 ++ r2)%list.
  rewrite H2, H1, app_assoc. split; [reflexivity | apply Forall_app; auto].
Qed.

End SendsOnly.

Create HintDb sends_db.
#[local] Hint Resolve sends_only_ret sends_only_throw sends_only_sys_exit
  sends_only_print_err sends_only_print_out sends_only_read_file
  sends_only_time_time : sends_db.

Ltac sends_tac :=
  repeat first
    [ solve [eauto with sends_db]
    | progress cbv zeta
    | apply sends_only_bind; [ | intro ]
    | apply sends_only_catch
    | apply sends_only_ret | apply sends_only_throw | apply sends_only_sys_exit
    | apply sends_only_print_err | apply sends_only_print_out
    | apply sends_only_read_file | apply sends_only_time_time
    | match goal with |- sends_only _ (match ?x with _ => _ end) => destruct x end ].

Lemma check_required_sends P keys settings :
  sends_only P (check_required keys settings).
Proof. induction keys; simpl; sends_tac; auto. Qed.
#[local] Hint Resolve check_required_sends : sends_db.

Lemma load_settings_sends P : sends_only P load_settings.
Proof.
  intros w. unfold load_settings. destruct (w_settings w) as [content|];
    apply sends_only_at; sends_tac.
Qed.
#[local] Hint Resolve load_settings_sends : sends_db.

Lemma dict_index_sends P m k : sends_only P (dict_index m k).
Proof. unfold dict_index. sends_tac. Qed.
#[local] Hint Resolve dict_index_sends : sends_db.

Lemma resolve_text_sends P t f : sends_only P (resolve_text t f).
Proof. unfold resolve_text. sends_tac. Qed.
#[local] Hint Resolve resolve_text_sends : sends_db.

Lemma validate_text_length_sends P t n : sends_only P (validate_text_length t n).
Proof. unfold validate_text_length. sends_tac. Qed.
#[local] Hint Resolve validate_text_length_sends : sends_db.

Lemma api_request_get_sends url hs :
  sends_only is_get (api_request "GET" url hs None None).
Proof.
  unfold api_request. sends_tac. apply sends_only_urlopen. reflexivity.
Qed.
#[local] Hint Resolve api_request_get_sends : sends_db.

Lemma json_get_sends P j k : sends_only P (json_get j k).
Proof. unfold json_get. sends_tac. Qed.
#[local] Hint Resolve json_get_sends : sends_db.

Lemma verify_post_text_sends tok pid t : sends_only is_get (verify_post_text tok pid t).
Proof.
  unfold verify_post_text. apply sends_only_catch.
  - apply sends_only_bind; [apply api_request_get_sends | intros].
    sends_tac.
  - apply sends_only_print_err.
Qed.
#[local] Hint Resolve verify_post_text_sends : sends_db.

Lemma bind_assoc {A B C} (c : M A) (k1 : A -> M B) (k2 : B -> M C) w :
  bind (bind c k1) k2 w = bind c (fun a => bind (k1 a) k2) w.
Proof. unfold bind. destruct (c w) as [[a|e] w']; reflexivity. Qed.

Lemma length_add_call rq w : length (w_calls (add_call rq w)) = S (length (w_calls w)).
Proof. simpl. rewrite length_app. simpl. lia. Qed.

(** [create_post] sends the post request first, then GET requests only. *)
Lemma create_post_sends tok urn t c vis w :
  exists rest,
    w_calls (snd (create_post tok urn t c vis w)) =
      (w_calls w ++ post_request tok urn t c vis :: rest)%list /\ Forall is_get rest.
Proof.
  unfold create_post, api_request. cbv zeta. rewrite bind_assoc.
  unfold bind at 1. cbn [urlopen].
  match goal with
  | |- exists rest, w_calls (snd (?k ?w')) = _ /\ _ =>
      assert (Hs : sends_only is_get k); [ | destruct (Hs w') as [rest [H F]]]
  end.
  - sends_tac.
  - exists rest. rewrite H. simpl. rewrite <- app_assoc. split; [reflexivity | exact F].
Qed.

(** [upload_image] with an existing file and answering server: the
    initialisation request, then the binary upload. *)
Lemma upload_image_ok tok urn p b u img st hs st' hs' bd w n :
  n = length (w_calls w) ->
  w_files w p = Some b ->
  w_net w n (init_request tok urn) = upload_answer st hs u img ->
  w_net w (S n) (put_request tok u b) = HttpResp st' hs' bd ->
  upload_image tok urn p w =
    (Ok img, add_call (put_request tok u b) (add_call (init_request tok urn) w)).
Proof.
  intros -> Hf Hi Hp. unfold upload_image, bind at 1, read_file. rewrite Hf.
  unfold api_request. cbv zeta. rewrite bind_assoc. unfold bind at 1. cbn [urlopen].
  fold (init_request tok urn). rewrite Hi.
  unfold bind at 1. cbn -[add_call put_request init_request].
  rewrite length_add_call. cbn -[add_call put_request init_request].
  change (w_net (add_call (init_request tok urn) w)) with (w_net w).
  unfold put_request in Hp. rewrite Hp. reflexivity.
Qed.

Lemma sends_nothing {A} (c : M A) w :
  sends_only (fun _ => False) c -> w_calls (snd (c w)) = w_calls w.
Proof.
  intros H. destruct (H w) as [[|rq rest] [E F]].
  - rewrite E. apply app_nil_r.
  - inversion F. contradiction.
Qed.

Lemma no_exit0_at {A} (c : M A) w : no_exit0 c -> fst (c w) <> Exc (SysExit 0).
Proof. intros H. apply H. Qed.

Lemma no_exit0_ret {A} (a : A) : no_exit0 (ret a).
Proof. intros w. discriminate. Qed.

Lemma no_exit0_raise {A} s : no_exit0 (@throw A (Raised s)).
Proof. intros w. discriminate. Qed.

Lemma no_exit0_sys_exit {A} n : n <> 0%Z -> no_exit0 (@sys_exit A n).
Proof. intros Hn w H. injection H. exact Hn. Qed.

Lemma no_exit0_print_err l : no_exit0 (print_err l).
Proof. intros w. discriminate. Qed.

Lemma no_exit0_print_out l : no_exit0 (print_out l).
Proof. intros w. discriminate. Qed.

Lemma no_exit0_read_file p : no_exit0 (read_file p).
Proof. intros w. discriminate. Qed.

Lemma no_exit0_time_time : no_exit0 time_time.
Proof. intros w. discriminate. Qed.

Lemma no_exit0_bind {A B} (c : M A) (k : A -> M B) :
  no_exit0 c -> (forall a, no_exit0 (k a)) -> no_exit0 (bind c k).
Proof.
  intros Hc Hk w. unfold bind. specialize (Hc w).
  destruct (c w) as [[a|e] w']; [apply Hk | ].
  simpl in *. intros H. injection H as ->. apply Hc. reflexivity.
Qed.

Lemma fails_at {A} (c : M A) w : fails c -> exit_code (fst (c w)) <> 0%Z.
Proof. intros H. apply H. Qed.

Lemma fails_bind {A B} (c : M A) (k : A -> M B) :
  no_exit0 c -> (forall a, fails (k a)) -> fails (bind c k).
Proof.
  intros Hc Hk w. unfold bind. specialize (Hc w).
  destruct (c w) as [[a|[n|s]] w']; simpl in *; [apply Hk | | discriminate].
  intros ->. apply Hc. reflexivity.
Qed.

Lemma fails_sys_exit {A} n : n <> 0%Z -> fails (@sys_exit A n).
Proof. intros Hn w. exact Hn. Qed.

Create HintDb exit_db.
#[local] Hint Resolve no_exit0_ret no_exit0_raise no_exit0_print_err no_exit0_print_out
  no_exit0_read_file no_exit0_time_time : exit_db.

Ltac no_exit0_tac :=
  repeat first
    [ solve [eauto with exit_db]
    | progress cbv zeta
    | apply no_exit0_bind; [ | intro ]
    | apply no_exit0_sys_exit; discriminate
    | match goal with |- no_exit0 (match ?x with _ => _ end) => destruct x end ].

Lemma check_required_no_exit0 keys settings : no_exit0 (check_required keys settings).
Proof. induction keys; simpl; no_exit0_tac. Qed.
#[local] Hint Resolve check_required_no_exit0 : exit_db.

Lemma load_settings_no_exit0 : no_exit0 load_settings.
Proof.
  intros w. unfold load_settings. destruct (w_settings w) as [content|];
    apply no_exit0_at; no_exit0_tac.
Qed.

Lemma dict_index_no_exit0 m k : no_exit0 (dict_index m k).
Proof. unfold dict_index. no_exit0_tac. Qed.
#[local] Hint Resolve load_settings_no_exit0 dict_index_no_exit0 : exit_db.

Lemma resolve_text_no_exit0 t f : no_exit0 (resolve_text t f).
Proof. unfold resolve_text. no_exit0_tac. Qed.

Lemma validate_text_length_no_exit0 t n : no_exit0 (validate_text_length t n).
Proof. unfold validate_text_length. no_exit0_tac. Qed.
#[local] Hint Resolve resolve_text_no_exit0 validate_text_length_no_exit0 : exit_db.

(** With fewer than two images, [cmd_post_multi_image] sends no request
    and ends with a non-zero status; once the settings and the text are
    read, the error line is the last line written to stderr. *)
Lemma post_multi_image_too_few args w :
  (length (ma_images args) < 2)%nat ->
  w_calls (snd (cmd_post_multi_image args w)) = w_calls w /\
  exit_code (fst (cmd_post_multi_image args w)) <> 0%Z /\
  (forall settings w1 token urn text,
     load_settings w = (Ok settings, w1) ->
     settings !! "access_token" = Some token ->
     settings !! "person_urn" = Some urn ->
     ma_text args = Some text -> ma_text_file args = None ->
     exists w', cmd_post_multi_image args w = (Exc (SysExit 1), w') /\
       last (w_stderr w') = Some "ERROR=Multi-image posts require at least 2 images.").
Proof.
  intros Hlt.
  assert (E : (length (ma_images args) <? 2)%nat = true) by (apply Nat.ltb_lt; exact Hlt).
  unfold cmd_post_multi_image. rewrite E. split; [ | split].
  - apply sends_nothing. sends_tac.
  - apply fails_at.
    repeat (apply fails_bind; [solve [no_exit0_tac] | intro]).
    apply fails_sys_exit. discriminate.
  - intros settings w1 token urn text Hload Htok Hurn Ht Hf.
    unfold bind at 1. rewrite Hload.
    unfold bind at 1, dict_index. rewrite Htok.
    unfold bind at 1. rewrite Hurn.
    unfold resolve_text. rewrite Ht, Hf.
    cbn -[validate_text_length print_err sys_exit].
    unfold validate_text_length. cbv zeta.
    destruct (3000 <? String.length text)%nat; cbn;
      (eexists; split; [reflexivity | apply last_snoc]).
Qed.

Lemma upload_images_two tok urn p1 p2 b1 b2 u1 u2 i1 i2
    st1 hs1 st2 hs2 bd2 st3 hs3 st4 hs4 bd4 w n :
  n = length (w_calls w) ->
  w_files w p1 = Some b1 -> w_files w p2 = Some b2 ->
  w_net w n (init_request tok urn) = upload_answer st1 hs1 u1 i1 ->
  w_net w (1 + n) (put_request tok u1 b1) = HttpResp st2 hs2 bd2 ->
  w_net w (2 + n) (init_request tok urn) = upload_answer st3 hs3 u2 i2 ->
  w_net w (3 + n) (put_request tok u2 b2) = HttpResp st4 hs4 bd4 ->
  exists wu, upload_images tok urn 2 0 [p1; p2]%list w = (Ok [i1; i2]%list, wu) /\
    w_calls wu = (w_calls w ++ [init_request tok urn; put_request tok u1 b1;
                                init_request tok urn; put_request tok u2 b2])%list.
Proof.
  intros Hn Hf1 Hf2 Hi1 Hp1 Hi2 Hp2. simpl upload_images.
  eexists. split.
  { unfold bind at 1. cbn [print_err].
  unfold bind at 1.
  rewrite (upload_image_ok tok urn p1 b1 u1 i1 st1 hs1 st2 hs2 bd2 _ n) by auto.
  unfold bind. cbn [print_err].
  rewrite (upload_image_ok tok urn p2 b2 u2 i2 st3 hs3 st4 hs4 bd4 _ (2 + n))
    by (auto; simpl; rewrite !length_app; simpl; lia).
    reflexivity. }
  simpl. rewrite <- !app_assoc. reflexivity.
Qed.

Lemma validate_text_length_ok t n w :
  exists ok w', validate_text_length t n w = (Ok ok, w') /\
    w_calls w' = w_calls w /\ w_files w' = w_files w /\ w_net w' = w_net w.
Proof.
  unfold validate_text_length. cbv zeta.
  destruct (n <? String.length t)%nat; cbn; eauto 10.
Qed.

(** With two images, a successful upload of each and a server that
    answers, the requests are: initialise and upload the first image,
    initialise and upload the second, then (without [--preview]) the
    post request followed by GET requests only. *)
Lemma post_multi_image_two args w settings w1 token urn text p1 p2 b1 b2 u1 u2 i1 i2
    st1 hs1 st2 hs2 bd2 st3 hs3 st4 hs4 bd4 :
  load_settings w = (Ok settings, w1) ->
  settings !! "access_token" = Some token ->
  settings !! "person_urn" = Some urn ->
  ma_text args = Some text -> ma_text_file args = None ->
  ma_images args = [p1; p2]%list ->
  w_files w1 p1 = Some b1 -> w_files w1 p2 = Some b2 ->
  w_net w1 (length (w_calls w1)) (init_request token urn) = upload_answer st1 hs1 u1 i1 ->
  w_net w1 (1 + length (w_calls w1)) (put_request token u1 b1) = HttpResp st2 hs2 bd2 ->
  w_net w1 (2 + length (w_calls w1)) (init_request token urn) = upload_answer st3 hs3 u2 i2 ->
  w_net w1 (3 + length (w_calls w1)) (put_request token u2 b2) = HttpResp st4 hs4 bd4 ->
  exists rest,
    w_calls (snd (cmd_post_multi_image args w)) =
      (w_calls w1 ++ [init_request token urn; put_request token u1 b1;
                      init_request token urn; put_request token u2 b2] ++ rest)%list /\
    (if ma_preview args then rest = []%list
     else exists rest',
       rest = post_request token urn text
                (Some (JObj [("multiImage",
                              JObj [("images", JArr (images_payload 0
                                 (match ma_alt_texts args with Some l => l | None => [] end)
                                 [i1; i2]))])]))
                (ma_visibility args) :: rest' /\
       Forall is_get rest').
Proof.
  intros Hload Htok Hurn Ht Htf Himg Hf1 Hf2 Hi1 Hp1 Hi2 Hp2.
  unfold cmd_post_multi_image, bind at 1. rewrite Hload.
  unfold bind at 1, dict_index. rewrite Htok.
  unfold bind at 1. rewrite Hurn.
  unfold resolve_text. rewrite Ht, Htf, Himg.
  remember (match ma_alt_texts args with Some l => l | None => [] end)%list as alts.
  destruct (validate_text_length_ok text 3000 w1) as (ok & wv & Hv & Hcv & Hfv & Hnv).
  cbn -[validate_text_length print_err sys_exit upload_images print_out create_post
        images_payload].
  unfold bind at 1. rewrite Hv.
  destruct (upload_images_two token urn p1 p2 b1 b2 u1 u2 i1 i2 st1 hs1 st2 hs2 bd2
              st3 hs3 st4 hs4 bd4 wv (length (w_calls w1)))
    as (wu & Hu & Hcu); [ rewrite ?Hcv, ?Hfv, ?Hnv; first [assumption | reflexivity] .. | ].
  cbv beta iota. unfold bind at 1. rewrite Hu.
  rewrite Hcv in Hcu.
  destruct (ma_preview args).
  - exists []%list. split; [ | reflexivity].
    rewrite sends_nothing by sends_tac. rewrite Hcu. reflexivity.
  - unfold bind at 1.
    destruct (create_post_sends token urn text
                (Some (JObj [("multiImage",
                              JObj [("images", JArr (images_payload 0 alts [i1; i2]))])]))
                (ma_visibility args) wu) as (rest' & Hc & Hg).
    destruct (create_post _ _ _ _ _ wu) as [[pid|e] wc] eqn:Ec; simpl in Hc.
    + rewrite sends_nothing by sends_tac. rewrite Hc, Hcu.
      eexists. split; [ | eexists; split; [reflexivity | exact Hg]].
      rewrite <- !app_assoc. reflexivity.
    + simpl. rewrite Hc, Hcu.
      eexists. split; [ | eexists; split; [reflexivity | exact Hg]].
      rewrite <- !app_assoc. reflexivity.
Qed.

(** C5: with exactly one image path, [cmd_post_multi_image] sends no
    request at all and ends with a non-zero status, the last stderr line
    being the argument error once the settings and the text are read; with
    two image paths (and uploads that succeed), the two uploads go out in
    argument order, each as its initialisation then its binary upload,
    and only then, without [--preview], the single post request, followed
    by the read-back GET requests only. *)
Theorem post_multi_image_order :
  (forall args w, length (ma_images args) = 1%nat ->
     w_calls (snd (cmd_post_multi_image args w)) = w_calls w /\
     exit_code (fst (cmd_post_multi_image args w)) <> 0%Z /\
     (forall settings w1 token urn text,
        load_settings w = (Ok settings, w1) ->
        settings !! "access_token" = Some token ->
        settings !! "person_urn" = Some urn ->
        ma_text args = Some text -> ma_text_file args = None ->
        exists w', cmd_post_multi_image args w = (Exc (SysExit 1), w') /\
          last (w_stderr w') = Some "ERROR=Multi-image posts require at least 2 images.")) /\
  (forall args w settings w1 token urn text p1 p2 b1 b2 u1 u2 i1 i2
      st1 hs1 st2 hs2 bd2 st3 hs3 st4 hs4 bd4,
     load_settings w = (Ok settings, w1) ->
     settings !! "access_token" = Some token ->
     settings !! "person_urn" = Some urn ->
     ma_text args = Some text -> ma_text_file args = None ->
     ma_images args = [p1; p2]%list ->
     w_files w1 p1 = Some b1 -> w_files w1 p2 = Some b2 ->
     w_net w1 (length (w_calls w1)) (init_request token urn) = upload_answer st1 hs1 u1 i1 ->
     w_net w1 (1 + length (w_calls w1)) (put_request token u1 b1) = HttpResp st2 hs2 bd2 ->
     w_net w1 (2 + length (w_calls w1)) (init_request token urn) = upload_answer st3 hs3 u2 i2 ->
     w_net w1 (3 + length (w_calls w1)) (put_request token u2 b2) = HttpResp st4 hs4 bd4 ->
     exists rest,
       w_calls (snd (cmd_post_multi_image args w)) =
         (w_calls w1 ++ [init_request token urn; put_request token u1 b1;
                         init_request token urn; put_request token u2 b2] ++ rest)%list /\
       (if ma_preview args then rest = []%list
        else exists rest',
          rest = post_request token urn text
                   (Some (JObj [("multiImage",
                                 JObj [("images", JArr (images_payload 0
                                    (match ma_alt_texts args with Some l => l | None => [] end)
                                    [i1; i2]))])]))
                   (ma_visibility args) :: rest' /\
          Forall is_get rest')).
Proof.
  split.
  - intros args w H1. apply post_multi_image_too_few. lia.
  - intros. eapply post_multi_image_two; eassumption.
Qed.

(** A signed-in world with two image files and an upload server. *)
Definition upload_world (preview : bool) : world :=
  mk_world (Some (sample_settings "0")) 100 (fun _ => EmptyString)
    (fun p => if String.eqb p "a.png" then Some "AAA"
              else if String.eqb p "b.png" then Some "BBB" else None)
    (fun n _ => match n with
                | 0 => upload_answer 200 [] "https://up.example/1" (JStr "urn:li:image:1")
                | 1 => HttpResp 201 [] None
                | 2 => upload_answer 200 [] "https://up.example/2" (JStr "urn:li:image:2")
                | 3 => HttpResp 201 [] None
                | _ => HttpResp 201 [("x-restli-id", "urn:li:share:9")] None
                end%nat)
    [] [] [].

Definition one_image_args : multi_image_args :=
  mk_multi_image_args (Some "hello") None ["a.png"]%list None "PUBLIC" false.

Definition two_image_args : multi_image_args :=
  mk_multi_image_args (Some "hello") None ["a.png"; "b.png"]%list None "PUBLIC" false.

Lemma post_multi_image_order_witness :
  (w_calls (snd (cmd_post_multi_image one_image_args (upload_world false))) = [] /\
   exit_code (fst (cmd_post_multi_image one_image_args (upload_world false))) <> 0%Z /\
   (forall settings w1 token urn text,
      load_settings (upload_world false) = (Ok settings, w1) ->
      settings !! "access_token" = Some token ->
      settings !! "person_urn" = Some urn ->
      ma_text one_image_args = Some text -> ma_text_file one_image_args = None ->
      exists w', cmd_post_multi_image one_image_args (upload_world false) =
                   (Exc (SysExit 1), w') /\
        last (w_stderr w') = Some "ERROR=Multi-image posts require at least 2 images.")) /\
  exists rest,
    w_calls (snd (cmd_post_multi_image two_image_args (upload_world false))) =
      ([init_request "tok" "urn:li:person:1"; put_request "tok" "https://up.example/1" "AAA";
        init_request "tok" "urn:li:person:1"; put_request "tok" "https://up.example/2" "BBB"]
       ++ rest)%list /\
    exists rest',
      rest = post_request "tok" "urn:li:person:1" "hello"
               (Some (JObj [("multiImage",
                             JObj [("images", JArr (images_payload 0 []
                                [JStr "urn:li:image:1"; JStr "urn:li:image:2"]))])]))
               "PUBLIC" :: rest' /\ Forall is_get rest'.
Proof.
  split.
  - apply (proj1 post_multi_image_order one_image_args (upload_world false)).
    reflexivity.
  - apply (proj2 post_multi_image_order two_image_args (upload_world false)
             (parse_frontmatter (sample_frontmatter "0")) (upload_world false)
             "tok" "urn:li:person:1" "hello" "a.png" "b.png" "AAA" "BBB"
             "https://up.example/1" "https://up.example/2"
             (JStr "urn:li:image:1") (JStr "urn:li:image:2")
             200%Z [] 201%Z [] None 200%Z [] 201%Z [] None).
    all: vm_compute; reflexivity.
Defined.

(* ------------------------------------------------------------------ *)
(** ** The settings file round trip: string facts *)

(** stdpp declares [String.append] [simpl never]; the proofs below
    compute with it. *)
#[local] Arguments String.append : simpl nomatch.

(** [all(p(c) for c in s)] *)
Fixpoint all_chars (p : ascii -> bool) (s : string) : bool :=
  match s with
  | EmptyString => true
  | String c s' => p c && all_chars p s'
  end.

Fixpoint last_char (s : string) : option ascii :=
  match s with
  | EmptyString => None
  | String c EmptyString => Some c
  | String _ s' => last_char s'
  end.

Definition is_quote (c : ascii) : bool := Ascii.eqb c dq || Ascii.eqb c sq.

(** A value that the two quote strips of [load_settings] leave as it is:
    it neither begins nor ends with a double or a single quote. *)
Definition bare_value (v : string) : bool :=
  match v with
  | EmptyString => true
  | String c _ =>
      negb (is_quote c) &&
      match last_char v with Some d => negb (is_quote d) | None => true end
  end.

(** A value that keeps the frontmatter layout: no line break and no
    [---] marker inside. *)
Definition one_line_field (v : string) : bool :=
  negb (py_in nl v) && negb (py_in "---" v).

Definition is_digit (c : ascii) : bool :=
  let n := nat_of_ascii c in ((48 <=? n) && (n <=? 57))%nat.

(** The characters scanned so far by [split_go], pushed on [cur]. *)
Fixpoint push (s : string) (cur : list ascii) : list ascii :=
  match s with
  | EmptyString => cur
  | String c s' => push s' (c :: cur)
  end.

(** [split_go] reads [s] without closing a piece. *)
Fixpoint nocut (rsep cur : list ascii) (s : string) : bool :=
  match s with
  | EmptyString => true
  | String c s' => negb (list_prefix rsep (c :: cur)) && nocut rsep (c :: cur) s'
  end.

Lemma sapp_assoc (a b c : string) : (a ++ b) ++ c = a ++ (b ++ c).
Proof. induction a as [|x a IH]; simpl; [reflexivity | now rewrite IH]. Qed.

Lemma sapp_cons (x : ascii) (a b : string) : String x a ++ b = String x (a ++ b).
Proof. reflexivity. Qed.

Lemma sapp_nil_r (a : string) : a ++ EmptyString = a.
Proof. induction a as [|x a IH]; simpl; [reflexivity | now rewrite IH]. Qed.

(** *** Substring search *)

Lemma prefix_app (p t : string) : String.prefix p (p ++ t) = true.
Proof.
  induction p as [|x p IH]; simpl; [destruct t; reflexivity|].
  destruct (ascii_dec x x) as [_|n]; [exact IH | contradiction].
Qed.

Lemma prefix_inv (p s : string) : String.prefix p s = true -> exists r, s = p ++ r.
Proof.
  revert s. induction p as [|x p IH]; intros s H; simpl.
  - exists s. reflexivity.
  - destruct s as [|y s]; [discriminate|]. simpl in H.
    destruct (ascii_dec x y) as [->|]; [|discriminate].
    destruct (IH s H) as [r ->]. exists r. reflexivity.
Qed.

Lemma py_in_unfold (sub s : string) :
  py_in sub s =
  String.prefix sub s || match s with EmptyString => false | String _ s' => py_in sub s' end.
Proof. destruct s; reflexivity. Qed.

Lemma py_in_mid (sub a b : string) : py_in sub (a ++ sub ++ b) = true.
Proof.
  induction a as [|x a IH]; simpl.
  - rewrite py_in_unfold, prefix_app. reflexivity.
  - rewrite IH. apply Bool.orb_true_r.
Qed.

Lemma py_in_cons (sub : string) (x : ascii) (s : string) :
  py_in sub s = true -> py_in sub (String x s) = true.
Proof.
  intros H. rewrite py_in_unfold.
  change (match String x s with EmptyString => false | String _ s' => py_in sub s' end)
    with (py_in sub s).
  rewrite H. apply Bool.orb_true_r.
Qed.

Lemma prefix1 (c x : ascii) (s : string) :
  String.prefix (String c EmptyString) (String x s) = Ascii.eqb c x.
Proof.
  simpl. destruct (ascii_dec c x) as [->|n].
  - rewrite Ascii.eqb_refl. destruct s; reflexivity.
  - symmetry. apply Ascii.eqb_neq. exact n.
Qed.

(** A one-character search distributes over concatenation. *)
Lemma py_in1_app (c : ascii) (a b : string) :
  py_in (String c EmptyString) (a ++ b) =
  py_in (String c EmptyString) a || py_in (String c EmptyString) b.
Proof.
  induction a as [|x a IH]; simpl String.append.
  - destruct b; reflexivity.
  - change (py_in (String c EmptyString) (String x (a ++ b))) with
      (String.prefix (String c EmptyString) (String x (a ++ b)) ||
       py_in (String c EmptyString) (a ++ b)).
    change (py_in (String c EmptyString) (String x a)) with
      (String.prefix (String c EmptyString) (String x a) ||
       py_in (String c EmptyString) a).
    rewrite !prefix1, IH. apply Bool.orb_assoc.
Qed.

Definition not_dash_head (b : string) : Prop :=
  match b with String x _ => x <> "-"%char | EmptyString => True end.

(** A [---] in [a ++ b] lies in [a] or in [b] when [b] does not start
    with a dash. *)
Lemma py_in3_app (a b : string) :
  py_in "---" a = false -> py_in "---" b = false -> not_dash_head b ->
  py_in "---" (a ++ b) = false.
Proof.
  intros Ha Hb Hh. induction a as [|x a IH]; [exact Hb|].
  rewrite sapp_cons, py_in_unfold. rewrite py_in_unfold in Ha. cbv iota beta in Ha |- *.
  apply Bool.orb_false_iff in Ha as [Hpa Ha].
  rewrite (IH Ha), Bool.orb_false_r.
  destruct (String.prefix "---" (String x (a ++ b))) eqn:E; [|reflexivity].
  exfalso. apply prefix_inv in E as [r E].
  destruct a as [|y [|z a]]; simpl in E.
  - destruct b as [|u b]; [discriminate|].
    injection E; intros; subst; simpl in Hh; congruence.
  - destruct b as [|u b]; [discriminate|].
    injection E; intros; subst; simpl in Hh; congruence.
  - injection E; intros; subst. simpl in Hpa. destruct a; discriminate.
Qed.

(** *** [strip] *)

Lemma strip_left_keep (p : ascii -> bool) (s : string) :
  match s with String c _ => p c = false | EmptyString => True end ->
  strip_left p s = s.
Proof. destruct s as [|c s]; simpl; [reflexivity|]. intros ->. reflexivity. Qed.

Lemma strip_right_keep (p : ascii -> bool) (s : string) :
  match last_char s with Some c => p c = false | None => True end ->
  strip_right p s = s.
Proof.
  induction s as [|c s IH]; intros H; [reflexivity|].
  destruct s as [|c' s].
  - simpl in *. rewrite H. reflexivity.
  - change (strip_right p (String c (String c' s))) with
      (let r := strip_right p (String c' s) in
       match r with
       | EmptyString => if p c then EmptyString else String c EmptyString
       | _ => String c r
       end).
    cbv zeta. rewrite IH by exact H. reflexivity.
Qed.

Lemma strip_right_snoc (p : ascii -> bool) (s : string) (c : ascii) :
  p c = true -> strip_right p (s ++ String c EmptyString) = strip_right p s.
Proof.
  intros Hc. induction s as [|x s IH]; simpl.
  - rewrite Hc. reflexivity.
  - rewrite IH. reflexivity.
Qed.

Lemma last_char_app (a b : string) :
  b <> EmptyString -> last_char (a ++ b) = last_char b.
Proof.
  intros Hb. induction a as [|x a IH]; [reflexivity|].
  simpl String.append. rewrite <- IH.
  destruct a as [|y a]; simpl; [destruct b; [contradiction | reflexivity] | reflexivity].
Qed.

Lemma all_chars_last (q : ascii -> bool) (s : string) :
  all_chars q s = true ->
  match last_char s with Some c => q c = true | None => True end.
Proof.
  induction s as [|c s IH]; simpl; [trivial|].
  intros H. apply andb_prop in H as [Hc Hs].
  destruct s; [exact Hc | apply IH; exact Hs].
Qed.

Lemma py_strip_all (p q : ascii -> bool) (s : string) :
  (forall c, q c = true -> p c = false) -> all_chars q s = true -> py_strip p s = s.
Proof.
  intros Hpq Hs. unfold py_strip. rewrite strip_left_keep.
  - apply strip_right_keep. generalize (all_chars_last q s Hs).
    destruct (last_char s); auto.
  - destruct s as [|c s]; simpl in *; auto.
    apply andb_prop in Hs as [Hc _]. auto.
Qed.

(** [v.strip(q)] on [q + v + q], for a [v] not starting or ending with [q]. *)
Lemma py_strip_quoted (p : ascii -> bool) (c : ascii) (v : string) :
  p c = true ->
  match v with String x _ => p x = false | EmptyString => True end ->
  match last_char v with Some x => p x = false | None => True end ->
  py_strip p (String c (v ++ String c EmptyString)) = v.
Proof.
  intros Hc Hh Hl. unfold py_strip. simpl strip_left. rewrite Hc.
  destruct v as [|x v].
  - simpl. rewrite Hc. reflexivity.
  - simpl String.append. simpl strip_left. rewrite Hh.
    change (String x (v ++ String c EmptyString)) with
      (String x v ++ String c EmptyString).
    rewrite strip_right_snoc by exact Hc. apply strip_right_keep. exact Hl.
Qed.

(** *** [split] *)

Lemma string_of_rev_push (s : string) (cur : list ascii) :
  string_of_rev (push s cur) = string_of_rev cur ++ s.
Proof.
  revert cur. induction s as [|c s IH]; intros cur; simpl.
  - symmetry. apply sapp_nil_r.
  - rewrite IH. simpl. rewrite sapp_assoc. reflexivity.
Qed.

Lemma push_app (a b : string) (cur : list ascii) :
  push (a ++ b) cur = push b (push a cur).
Proof. revert cur. induction a as [|c a IH]; intros cur; simpl; auto. Qed.

Lemma nocut_cons (rsep cur : list ascii) (c : ascii) (s : string) :
  nocut rsep cur (String c s) =
  negb (list_prefix rsep (c :: cur)) && nocut rsep (c :: cur) s.
Proof. reflexivity. Qed.

Lemma nocut_app (rsep cur : list ascii) (a b : string) :
  nocut rsep cur (a ++ b) = nocut rsep cur a && nocut rsep (push a cur) b.
Proof.
  revert cur. induction a as [|c a IH]; intros cur; simpl; [reflexivity|].
  rewrite IH. apply andb_assoc.
Qed.

Lemma split_go_nocut (rsep cur : list ascii) (s t : string) :
  nocut rsep cur s = true -> split_go rsep cur (s ++ t) = split_go rsep (push s cur) t.
Proof.
  revert cur. induction s as [|c s IH]; intros cur H; simpl; [reflexivity|].
  simpl in H. apply andb_prop in H as [H1 H2].
  apply Bool.negb_true_iff in H1. rewrite H1. apply IH. exact H2.
Qed.

Lemma split_go_hit (rsep cur : list ascii) (c : ascii) (s : string) :
  list_prefix rsep (c :: cur) = true ->
  split_go rsep cur (String c s) =
    string_of_rev (skipn (length rsep) (c :: cur)) :: split_go rsep [] s.
Proof. intros H. simpl. rewrite H. reflexivity. Qed.

Lemma split_go_nocut_end (rsep cur : list ascii) (s : string) :
  nocut rsep cur s = true -> split_go rsep cur s = [string_of_rev (push s cur)]%list.
Proof.
  intros H. rewrite <- (sapp_nil_r s) at 1. rewrite split_go_nocut by exact H.
  reflexivity.
Qed.

Lemma nocut1 (c : ascii) (cur : list ascii) (s : string) :
  nocut [c]%list cur s = negb (py_in (String c EmptyString) s).
Proof.
  revert cur. induction s as [|x s IH]; intros cur; [reflexivity|].
  change (py_in (String c EmptyString) (String x s)) with
    (String.prefix (String c EmptyString) (String x s) ||
     py_in (String c EmptyString) s).
  simpl nocut. rewrite prefix1, IH, Bool.negb_orb, andb_true_r. reflexivity.
Qed.

Lemma nocut3 (cur : list ascii) (s : string) :
  py_in "---" (string_of_rev cur ++ s) = false ->
  nocut ["-"; "-"; "-"]%char%list cur s = true.
Proof.
  revert cur. induction s as [|c s IH]; intros cur H; [reflexivity|].
  rewrite nocut_cons. apply andb_true_intro. split.
  - apply Bool.negb_true_iff.
    destruct (list_prefix ["-"; "-"; "-"]%char%list (c :: cur)) eqn:E; [|reflexivity].
    exfalso.
    destruct cur as [|c1 [|c2 cur]]; cbn [list_prefix] in E;
      [rewrite andb_false_r in E; discriminate
      |rewrite !andb_false_r in E; discriminate|].
    apply andb_prop in E as [E1 E]. apply andb_prop in E as [E2 E].
    apply andb_prop in E as [E3 _].
    apply Ascii.eqb_eq in E1, E2, E3. subst.
    assert (Hs : string_of_rev ("-" :: "-" :: cur)%char%list ++ String "-" s =
                 string_of_rev cur ++ "---" ++ s).
    { simpl. rewrite !sapp_assoc. reflexivity. }
    rewrite Hs, py_in_mid in H. discriminate.
  - apply IH. simpl. rewrite sapp_assoc. exact H.
Qed.

(** [s.split(sep)] on [a + sep + b] when the separator does not occur
    before the one shown. *)
Lemma split_nl (cur : list ascii) (a b : string) :
  py_in nl a = false ->
  split_go [nl_c]%list cur (a ++ nl ++ b) =
    (string_of_rev cur ++ a) :: split_go [nl_c]%list [] b.
Proof.
  intros Ha. rewrite split_go_nocut by (rewrite nocut1; unfold nl in Ha; rewrite Ha; reflexivity).
  change (nl ++ b) with (String nl_c b).
  rewrite split_go_hit by reflexivity. change (skipn (length [nl_c]) (nl_c :: push a cur))%list with (push a cur).
  rewrite string_of_rev_push. reflexivity.
Qed.

Lemma split_nl_end (cur : list ascii) (a : string) :
  py_in nl a = false -> split_go [nl_c]%list cur a = [(string_of_rev cur ++ a)%string]%list.
Proof.
  intros Ha. rewrite split_go_nocut_end by (rewrite nocut1; unfold nl in Ha; rewrite Ha; reflexivity).
  rewrite string_of_rev_push. reflexivity.
Qed.

Lemma prefix_app_r (p s t : string) :
  String.prefix p s = true -> String.prefix p (s ++ t) = true.
Proof.
  intros H. apply prefix_inv in H as [u ->]. rewrite sapp_assoc. apply prefix_app.
Qed.

Lemma py_in_app_l (sub x y : string) : py_in sub x = true -> py_in sub (x ++ y) = true.
Proof.
  induction x as [|c x IH]; intros H.
  - rewrite py_in_unfold in H. simpl in H. rewrite Bool.orb_false_r in H.
    destruct sub; [|discriminate]. destruct y; reflexivity.
  - rewrite sapp_cons, py_in_unfold. rewrite py_in_unfold in H.
    cbv iota beta in H |- *. apply Bool.orb_true_iff in H as [H|H].
    + assert (H' := prefix_app_r _ _ y H). rewrite sapp_cons in H'.
      rewrite H'. reflexivity.
    + rewrite (IH H). apply Bool.orb_true_r.
Qed.

Definition dash3 : list ascii := ["-"; "-"; "-"]%char%list.

(** The opening [---] of the file. *)
Lemma split_dash_open (s : string) :
  split_go dash3 [] ("---" ++ s) = EmptyString :: split_go dash3 [] s.
Proof. reflexivity. Qed.

(** A line break followed by the closing [---]. *)
Lemma split_dash_close (cur : list ascii) (r : string) :
  split_go dash3 cur (nl ++ "---" ++ r) =
    string_of_rev (nl_c :: cur) :: split_go dash3 [] r.
Proof.
  change (nl ++ "---" ++ r) with
    (String nl_c (String "-" (String "-" EmptyString)) ++ String "-" r).
  rewrite split_go_nocut by reflexivity.
  rewrite split_go_hit by reflexivity. reflexivity.
Qed.

(** The frontmatter between the first two markers of [content]. *)
Lemma split_dash (g r : string) :
  py_in "---" (nl ++ g ++ nl) = false ->
  py_split "---" ("---" ++ nl ++ g ++ nl ++ "---" ++ r) =
    EmptyString :: (nl ++ g ++ nl) :: split_go dash3 [] r.
Proof.
  intros H. unfold py_split. change (rev (list_ascii_of_string "---")) with dash3.
  rewrite split_dash_open. f_equal.
  replace (nl ++ g ++ nl ++ "---" ++ r) with ((nl ++ g) ++ nl ++ "---" ++ r)
    by apply sapp_assoc.
  rewrite split_go_nocut.
  - rewrite split_dash_close. f_equal.
    change (string_of_rev (nl_c :: push (nl ++ g) [])) with
      (string_of_rev (push (nl ++ g) []) ++ nl).
    rewrite string_of_rev_push. reflexivity.
  - apply nocut3. simpl.
    apply Bool.not_true_iff_false. intros E. apply Bool.not_true_iff_false in H.
    apply H. rewrite <- sapp_assoc. apply py_in_app_l. exact E.
Qed.

(** *** [str(int)] and [int(str)] *)

Definition zchar (c : ascii) : bool := is_digit c || Ascii.eqb c "-".

Lemma all_chars_impl (p q : ascii -> bool) (s : string) :
  (forall c, p c = true -> q c = true) -> all_chars p s = true -> all_chars q s = true.
Proof.
  intros Hpq. induction s as [|c s IH]; simpl; [reflexivity|].
  intros H. apply andb_prop in H as [Hc Hs]. rewrite (Hpq c Hc), (IH Hs). reflexivity.
Qed.

(** No character of [s] starts [sub]. *)
Lemma all_chars_py_in (q : ascii -> bool) (c : ascii) (t s : string) :
  all_chars q s = true -> q c = false -> py_in (String c t) s = false.
Proof.
  intros Hs Hc. induction s as [|x s IH]; [reflexivity|].
  simpl in Hs. apply andb_prop in Hs as [Hx Hs].
  rewrite py_in_unfold. cbv iota beta. rewrite (IH Hs), Bool.orb_false_r.
  simpl. destruct (ascii_dec c x) as [->|]; [congruence | reflexivity].
Qed.

Lemma digits_nilempty (u : Decimal.uint) : all_chars is_digit (NilEmpty.string_of_uint u) = true.
Proof. induction u; simpl; try rewrite IHu; reflexivity. Qed.

Lemma Zstr_shape (z : Z) :
  exists d, all_chars is_digit d = true /\ d <> EmptyString /\
            (Zstr z = d \/ Zstr z = String "-" d).
Proof.
  unfold Zstr. destruct (Z.to_int z) as [u|u]; exists (NilZero.string_of_uint u);
    (split; [|split]); auto;
    destruct u; simpl; try discriminate; try reflexivity; apply digits_nilempty.
Qed.

Lemma Zstr_chars (z : Z) : all_chars zchar (Zstr z) = true.
Proof.
  destruct (Zstr_shape z) as [d [Hd [_ [-> | ->]]]].
  - apply (all_chars_impl is_digit); [|exact Hd].
    intros c Hc. unfold zchar. rewrite Hc. reflexivity.
  - simpl. apply (all_chars_impl is_digit); [|exact Hd].
    intros c Hc. unfold zchar. rewrite Hc. reflexivity.
Qed.

Lemma Zstr_nonempty (z : Z) : Zstr z <> EmptyString.
Proof. destruct (Zstr_shape z) as [d [_ [Hd [-> | ->]]]]; [exact Hd | discriminate]. Qed.

Lemma last_char_nonempty (a : ascii) (d : string) : last_char (String a d) <> None.
Proof. revert a. induction d as [|b d IH]; intros a; simpl; [discriminate | apply IH]. Qed.

Lemma Zstr_last (z : Z) :
  match last_char (Zstr z) with Some c => is_digit c = true | None => False end.
Proof.
  destruct (Zstr_shape z) as [d [Hd [Hne [-> | ->]]]].
  - generalize (all_chars_last _ _ Hd). destruct d; [contradiction|].
    generalize (last_char_nonempty a d). destruct (last_char (String a d)); auto.
  - change (String "-" d) with ("-" ++ d). rewrite last_char_app by exact Hne.
    generalize (all_chars_last _ _ Hd). destruct d; [contradiction|].
    generalize (last_char_nonempty a d). destruct (last_char (String a d)); auto.
Qed.

Lemma Zstr_no_nl (z : Z) : py_in nl (Zstr z) = false.
Proof. apply (all_chars_py_in zchar); [apply Zstr_chars | reflexivity]. Qed.

Lemma Zstr_no_dash3 (z : Z) : py_in "---" (Zstr z) = false.
Proof.
  destruct (Zstr_shape z) as [d [Hd [_ [-> | ->]]]].
  - apply (all_chars_py_in is_digit); [exact Hd | reflexivity].
  - rewrite py_in_unfold. cbv iota beta.
    rewrite (all_chars_py_in is_digit) by (exact Hd || reflexivity).
    rewrite Bool.orb_false_r.
    destruct (String.prefix "---" (String "-" d)) eqn:E; [|reflexivity].
    apply prefix_inv in E as [r E]. injection E as E. subst d.
    simpl in Hd. discriminate.
Qed.

Lemma py_int_Zstr (z : Z) : py_int (Zstr z) = Some z.
Proof.
  unfold py_int.
  rewrite (py_strip_all is_pyspace zchar).
  2: { intros c Hc. unfold zchar, is_digit in Hc.
       destruct c as [[|] [|] [|] [|] [|] [|] [|] [|]]; try reflexivity; discriminate. }
  2: apply Zstr_chars.
  pose proof (Zstr_chars z) as Hc.
  destruct (Zstr z) as [|c t] eqn:E; [exfalso; exact (Zstr_nonempty z E)|].
  simpl in Hc. apply andb_prop in Hc as [Hc _].
  replace (Ascii.eqb c "+") with false.
  2: { unfold zchar, is_digit in Hc. symmetry.
       destruct c as [[|] [|] [|] [|] [|] [|] [|] [|]]; try reflexivity; discriminate. }
  rewrite <- E. unfold Zstr. rewrite NilZero.isi.
  - simpl. f_equal. apply DecimalZ.of_to.
  - destruct z; simpl; try discriminate.
    intros H. injection H. apply DecimalPos.Unsigned.to_uint_nonnil.
  - destruct z; simpl; try discriminate.
    intros H. injection H. apply DecimalPos.Unsigned.to_uint_nonnil.
Qed.

(** *** One frontmatter line *)

Definition field_line (key u : string) : string := key ++ ": " ++ u.

Definition keychar (c : ascii) : bool := negb (is_pyspace c) && negb (Ascii.eqb c ":").

Lemma strip_right_cons (p : ascii -> bool) (c : ascii) (s : string) :
  strip_right p (String c s) =
  match strip_right p s with
  | EmptyString => if p c then EmptyString else String c EmptyString
  | String x y => String c (String x y)
  end.
Proof. simpl. destruct (strip_right p s); reflexivity. Qed.

Lemma strip_right_app (p : ascii -> bool) (a b : string) :
  strip_right p b <> EmptyString -> strip_right p (a ++ b) = a ++ strip_right p b.
Proof.
  intros Hb. induction a as [|c a IH]; [reflexivity|].
  rewrite !sapp_cons, strip_right_cons, IH.
  destruct (a ++ strip_right p b) as [|x y] eqn:E; [|reflexivity].
  exfalso. destruct a; simpl in E; [contradiction | discriminate].
Qed.

Lemma py_partition_app (c : ascii) (a b : string) :
  py_in (String c EmptyString) a = false ->
  py_partition c (a ++ String c b) = (a, String c EmptyString, b).
Proof.
  induction a as [|x a IH]; intros Ha.
  - simpl. rewrite Ascii.eqb_refl. reflexivity.
  - rewrite py_in_unfold in Ha. cbv iota beta in Ha.
    apply Bool.orb_false_iff in Ha as [Hx Ha].
    rewrite prefix1 in Hx. rewrite sapp_cons. simpl.
    rewrite Ascii.eqb_sym, Hx, (IH Ha). reflexivity.
Qed.

(** A line [key: u] of the frontmatter, with [u] free of surrounding
    whitespace, stores [u] with its quotes stripped under [key]. *)
Lemma parse_line_field (m : gmap string string) (key u : string) :
  key <> EmptyString -> all_chars keychar key = true ->
  u <> EmptyString -> strip_left is_pyspace u = u -> strip_right is_pyspace u = u ->
  parse_line m (field_line key u) =
    <[key := py_strip (is_char sq) (py_strip (is_char dq) u)]> m.
Proof.
  intros Hk0 Hk Hu0 Hl Hr.
  assert (Hline : py_strip is_pyspace (field_line key u) = field_line key u).
  { assert (Hu1 : strip_right is_pyspace (" " ++ u) = " " ++ u).
    { rewrite (strip_right_app _ " " u), Hr; [reflexivity|]. rewrite Hr. exact Hu0. }
    assert (Hu2 : strip_right is_pyspace (": " ++ u) = ": " ++ u).
    { change (": " ++ u) with (":" ++ " " ++ u).
      rewrite (strip_right_app _ ":" (" " ++ u)), Hu1; [reflexivity|].
      rewrite Hu1. discriminate. }
    unfold py_strip, field_line. rewrite strip_left_keep.
    - rewrite strip_right_app, Hu2; [reflexivity|]. rewrite Hu2. discriminate.
    - destruct key as [|k key]; [contradiction|]. simpl in Hk |- *.
      apply andb_prop in Hk as [Hk _]. apply andb_prop in Hk as [Hk _].
      apply Bool.negb_true_iff in Hk. exact Hk. }
  assert (Hin : py_in ":" (field_line key u) = true).
  { unfold field_line. change (": " ++ u) with (":" ++ " " ++ u). apply py_in_mid. }
  assert (Hpart : py_partition ":" (field_line key u) = (key, ":", " " ++ u)).
  { unfold field_line. change (": " ++ u) with (String ":" (" " ++ u)).
    apply py_partition_app. apply (all_chars_py_in keychar); [exact Hk | reflexivity]. }
  assert (Hkey : py_strip is_pyspace key = key).
  { apply (py_strip_all is_pyspace keychar); [|exact Hk].
    intros c Hc. unfold keychar in Hc. apply andb_prop in Hc as [Hc _].
    apply Bool.negb_true_iff in Hc. exact Hc. }
  assert (Hval : py_strip is_pyspace (" " ++ u) = u).
  { unfold py_strip. change (strip_left is_pyspace (" " ++ u)) with (strip_left is_pyspace u).
    rewrite Hl. exact Hr. }
  unfold parse_line. rewrite Hline, Hin, Hpart. cbv iota beta zeta.
  rewrite Hval, Hkey. reflexivity.
Qed.

Lemma quoted_strip_left (v : string) :
  strip_left is_pyspace (quoted v) = quoted v.
Proof. reflexivity. Qed.

Lemma quoted_strip_right (v : string) :
  strip_right is_pyspace (quoted v) = quoted v.
Proof.
  apply strip_right_keep. unfold quoted.
  rewrite <- sapp_assoc, last_char_app by (unfold dq_s; discriminate). reflexivity.
Qed.

Lemma quoted_value (v : string) :
  bare_value v = true ->
  py_strip (is_char sq) (py_strip (is_char dq) (quoted v)) = v.
Proof.
  intros Hv. unfold bare_value in Hv.
  assert (Hq : forall c, is_quote c = false -> is_char dq c = false /\ is_char sq c = false).
  { intros c Hc. unfold is_quote in Hc. apply Bool.orb_false_iff in Hc. exact Hc. }
  assert (Hh : match v with String c _ => is_quote c = false | EmptyString => True end).
  { destruct v; [exact I|]. apply andb_prop in Hv as [H _].
    apply Bool.negb_true_iff in H. exact H. }
  assert (Hl : match last_char v with Some c => is_quote c = false | None => True end).
  { destruct v; [exact I|]. apply andb_prop in Hv as [_ H].
    destruct (last_char (String a v)); [|exact I]. apply Bool.negb_true_iff in H. exact H. }
  unfold quoted, dq_s.
  change (String dq EmptyString ++ v ++ String dq EmptyString) with
    (String dq (v ++ String dq EmptyString)).
  rewrite py_strip_quoted.
  - unfold py_strip. rewrite strip_left_keep.
    + apply strip_right_keep. destruct (last_char v); [apply Hq; exact Hl | exact I].
    + destruct v; [exact I|]. apply Hq. exact Hh.
  - reflexivity.
  - destruct v; [exact I|]. apply Hq. exact Hh.
  - destruct (last_char v); [apply Hq; exact Hl | exact I].
Qed.

(** *** The file written by [save_settings] *)

(** The six lines of the frontmatter, joined by line breaks. *)
Definition fm_body (client_id client_secret access_token person_urn display_name : string)
    (expires_at : Z) : string :=
  field_line "client_id" (quoted client_id) ++ nl ++
  field_line "client_secret" (quoted client_secret) ++ nl ++
  field_line "access_token" (quoted access_token) ++ nl ++
  field_line "person_urn" (quoted person_urn) ++ nl ++
  field_line "display_name" (quoted display_name) ++ nl ++
  field_line "token_expires_at" (Zstr expires_at).

Definition fm_tail (person_urn display_name expires_str : string) : string :=
  nl ++
  nl ++
  "# LinkedIn Plugin Settings" ++ nl ++
  nl ++
  "Authenticated as **" ++ display_name ++ "** (" ++ person_urn ++ ")." ++ nl ++
  nl ++
  "Token expires at: " ++ expires_str ++ nl ++
  nl ++
  "To re-authenticate, run `/linkedin:setup` again." ++ nl.

Lemma settings_content_shape (cid cs tok urn name : string) (ea : Z) (when : string) :
  settings_content cid cs tok urn name ea when =
  "---" ++ nl ++ fm_body cid cs tok urn name ea ++ nl ++ "---" ++ fm_tail urn name when.
Proof.
  unfold settings_content, fm_body, fm_tail, field_line. rewrite !sapp_assoc. reflexivity.
Qed.

Lemma py_in3_app_r (a b : string) :
  py_in "---" a = false -> py_in "---" b = false -> last_char a <> Some "-"%char ->
  py_in "---" (a ++ b) = false.
Proof.
  intros Ha Hb. induction a as [|x a IH]; intros Hl; [exact Hb|].
  rewrite sapp_cons, py_in_unfold. rewrite py_in_unfold in Ha. cbv iota beta in Ha |- *.
  apply Bool.orb_false_iff in Ha as [Hpa Ha].
  assert (Hl' : last_char a <> Some "-"%char) by (destruct a; [discriminate | exact Hl]).
  rewrite (IH Ha Hl'), Bool.orb_false_r.
  destruct (String.prefix "---" (String x (a ++ b))) eqn:E; [|reflexivity].
  exfalso. apply prefix_inv in E as [r E].
  destruct a as [|y [|z a]]; simpl in E.
  - injection E; intros; subst. apply Hl. reflexivity.
  - injection E; intros; subst. apply Hl. reflexivity.
  - injection E; intros; subst. simpl in Hpa. destruct a; discriminate.
Qed.

Lemma py_in3_gen (a b : string) :
  py_in "---" a = false -> py_in "---" b = false ->
  not_dash_head b \/ last_char a <> Some "-"%char ->
  py_in "---" (a ++ b) = false.
Proof.
  intros Ha Hb [H|H]; [apply py_in3_app | apply py_in3_app_r]; assumption.
Qed.

Lemma digit_not_space (c : ascii) : is_digit c = true -> is_pyspace c = false.
Proof.
  destruct c as [[|] [|] [|] [|] [|] [|] [|] [|]]; try reflexivity; discriminate.
Qed.

Lemma field_line_no_nl (key u : string) :
  py_in nl key = false -> py_in nl u = false -> py_in nl (field_line key u) = false.
Proof.
  unfold field_line, nl. intros Hk Hu. rewrite !py_in1_app, Hk, Hu. reflexivity.
Qed.

Lemma quoted_no_nl (v : string) : py_in nl v = false -> py_in nl (quoted v) = false.
Proof. unfold quoted, nl. intros Hv. rewrite !py_in1_app, Hv. reflexivity. Qed.

Create HintDb fm_db.
#[local] Hint Resolve field_line_no_nl quoted_no_nl Zstr_no_nl : fm_db.

(** [frontmatter.strip().split("\n")]: the six lines. *)
Lemma fm_body_lines (cid cs tok urn name : string) (ea : Z) :
  py_in nl cid = false -> py_in nl cs = false -> py_in nl tok = false ->
  py_in nl urn = false -> py_in nl name = false ->
  py_split nl (fm_body cid cs tok urn name ea) =
    [field_line "client_id" (quoted cid); field_line "client_secret" (quoted cs);
     field_line "access_token" (quoted tok); field_line "person_urn" (quoted urn);
     field_line "display_name" (quoted name);
     field_line "token_expires_at" (Zstr ea)]%list.
Proof.
  intros H1 H2 H3 H4 H5. unfold py_split, fm_body.
  change (rev (list_ascii_of_string nl)) with [nl_c]%list.
  repeat (rewrite split_nl by (auto with fm_db)).
  rewrite split_nl_end by (auto with fm_db). reflexivity.
Qed.

Lemma fm_strip (cid cs tok urn name : string) (ea : Z) :
  py_strip is_pyspace (nl ++ fm_body cid cs tok urn name ea ++ nl) =
    fm_body cid cs tok urn name ea.
Proof.
  unfold py_strip.
  change (strip_left is_pyspace (nl ++ fm_body cid cs tok urn name ea ++ nl)) with
    (strip_left is_pyspace (fm_body cid cs tok urn name ea ++ nl)).
  rewrite strip_left_keep by reflexivity.
  unfold nl. rewrite strip_right_snoc by reflexivity.
  apply strip_right_keep. generalize (Zstr_last ea).
  unfold fm_body, field_line.
  rewrite !last_char_app by (discriminate || apply Zstr_nonempty).
  destruct (last_char (Zstr ea)); [apply digit_not_space | contradiction].
Qed.

Ltac no_dash3 :=
  repeat match goal with
  | |- py_in "---" (_ ++ _) = false =>
      apply py_in3_gen;
      [ first [reflexivity | assumption | apply Zstr_no_dash3]
      |
      | first [ left; cbv [not_dash_head String.append dq_s nl dq nl_c]; discriminate
              | right; cbv; discriminate ] ]
  | |- py_in "---" _ = false => first [reflexivity | assumption | apply Zstr_no_dash3]
  end.

(** No [---] between the opening marker and the closing one. *)
Lemma fm_no_dash3 (cid cs tok urn name : string) (ea : Z) :
  py_in "---" cid = false -> py_in "---" cs = false -> py_in "---" tok = false ->
  py_in "---" urn = false -> py_in "---" name = false ->
  py_in "---" (nl ++ fm_body cid cs tok urn name ea ++ nl) = false.
Proof.
  intros H1 H2 H3 H4 H5. unfold fm_body, field_line, quoted.
  rewrite !sapp_assoc. no_dash3.
Qed.

Lemma zchar_not_space (c : ascii) : zchar c = true -> is_pyspace c = false.
Proof.
  destruct c as [[|] [|] [|] [|] [|] [|] [|] [|]]; try reflexivity; discriminate.
Qed.

Lemma Zstr_strip_left (z : Z) : strip_left is_pyspace (Zstr z) = Zstr z.
Proof.
  apply strip_left_keep. generalize (Zstr_chars z).
  destruct (Zstr z) as [|c t]; [trivial|]. simpl. intros H.
  apply andb_prop in H as [H _]. apply zchar_not_space. exact H.
Qed.

Lemma Zstr_strip_right (z : Z) : strip_right is_pyspace (Zstr z) = Zstr z.
Proof.
  apply strip_right_keep. generalize (Zstr_last z).
  destruct (last_char (Zstr z)); [apply digit_not_space | contradiction].
Qed.

Lemma Zstr_value (z : Z) : py_strip (is_char sq) (py_strip (is_char dq) (Zstr z)) = Zstr z.
Proof.
  assert (Hq : forall p : ascii -> bool, p "-"%char = false ->
                 (forall c, is_digit c = true -> p c = false) ->
                 py_strip p (Zstr z) = Zstr z).
  { intros p Hm Hd. apply (py_strip_all p zchar); [|apply Zstr_chars].
    intros c Hc. unfold zchar in Hc. apply Bool.orb_true_iff in Hc as [Hc|Hc].
    - apply Hd. exact Hc.
    - apply Ascii.eqb_eq in Hc. subst c. exact Hm. }
  rewrite !Hq; try reflexivity;
    intros c Hc; unfold is_char; destruct c as [[|] [|] [|] [|] [|] [|] [|] [|]];
    try reflexivity; discriminate.
Qed.

Ltac field_side :=
  first [ discriminate | reflexivity | apply Zstr_nonempty | apply quoted_strip_left
        | apply quoted_strip_right | apply Zstr_strip_left | apply Zstr_strip_right
        | unfold quoted, dq_s; discriminate ].

(** The map built by [load_settings] from the frontmatter of [save_settings]. *)
Lemma parse_saved_frontmatter (cid cs tok urn name : string) (ea : Z) :
  one_line_field cid = true -> one_line_field cs = true -> one_line_field tok = true ->
  one_line_field urn = true -> one_line_field name = true ->
  parse_frontmatter (nl ++ fm_body cid cs tok urn name ea ++ nl) =
    <["token_expires_at" := Zstr ea]> (
    <["display_name" := py_strip (is_char sq) (py_strip (is_char dq) (quoted name))]> (
    <["person_urn" := py_strip (is_char sq) (py_strip (is_char dq) (quoted urn))]> (
    <["access_token" := py_strip (is_char sq) (py_strip (is_char dq) (quoted tok))]> (
    <["client_secret" := py_strip (is_char sq) (py_strip (is_char dq) (quoted cs))]> (
    <["client_id" := py_strip (is_char sq) (py_strip (is_char dq) (quoted cid))]> ∅))))).
Proof.
  unfold one_line_field. intros H1 H2 H3 H4 H5.
  apply andb_prop in H1 as [H1 _], H2 as [H2 _], H3 as [H3 _], H4 as [H4 _], H5 as [H5 _].
  apply Bool.negb_true_iff in H1, H2, H3, H4, H5.
  unfold parse_frontmatter. rewrite fm_strip, fm_body_lines by assumption.
  cbn [fold_left].
  rewrite !parse_line_field by field_side.
  rewrite Zstr_value. reflexivity.
Qed.

Lemma save_settings_world (cid cs tok urn name : string) (expires_in : Z) (w : world) :
  snd (save_settings cid cs tok urn name expires_in w) =
    set_settings (Some (settings_content cid cs tok urn name (w_clock w + expires_in)
                          (w_localtime w (w_clock w + expires_in)))) w.
Proof. reflexivity. Qed.

(** [load_settings] on a file that passes its checks and holds a token
    that has not expired. *)
Lemma load_settings_fresh (w : world) (content x frontmatter : string)
    (rest : list string) (ea : Z) :
  w_settings w = Some content ->
  String.prefix "---" content = true ->
  py_split "---" content = x :: frontmatter :: rest ->
  (forall k, In k ["access_token"; "person_urn"]%list ->
     exists v, parse_frontmatter frontmatter !! k = Some v /\ v <> EmptyString) ->
  match parse_frontmatter frontmatter !! "token_expires_at" with
  | None => ea = 0%Z
  | Some v => py_int v = Some ea
  end ->
  (ea = 0 \/ w_clock w <= ea)%Z ->
  load_settings w = (Ok (parse_frontmatter frontmatter), w).
Proof.
  intros Hs Hp Hsplit Hreq Hea Hfresh.
  assert (Hif : negb (Z.eqb ea 0) && Z.ltb ea (w_clock w) = false).
  { destruct Hfresh as [->|H]; [reflexivity|].
    apply andb_false_intro2. apply Z.ltb_ge. exact H. }
  unfold load_settings. rewrite Hs, Hp, Hsplit.
  cbn -[check_required parse_frontmatter bind].
  unfold bind at 1. rewrite (check_required_ok _ _ _ Hreq).
  destruct (parse_frontmatter frontmatter !! "token_expires_at") as [v|].
  - rewrite Hea. cbn -[parse_frontmatter]. rewrite Hif. reflexivity.
  - subst ea. reflexivity.
Qed.

(** What a later [load_settings] returns under [key], if it succeeds. *)
Definition loaded_field (key : string) (w : world) : option string :=
  match fst (load_settings w) with
  | Ok settings => settings !! key
  | Exc _ => None
  end.

Definition oauth_world (clock : Z) : world :=
  mk_world None clock (fun _ => EmptyString) (fun _ => None)
    (fun _ _ => UrlError "unreachable") [] [] [].

(** ** C4: [save_settings] then [load_settings] *)

(** C4 (corrected). After [save_settings] writes the credential file, a
    [load_settings] run (at a time when the token has not expired, or
    with an expiry of 0) succeeds and returns the saved [access_token],
    [person_urn] and [display_name], and the [token_expires_at] string
    that [int] reads back as the saved expiry, provided that no field
    contains a line break or [---], that the token and the person URN are
    non-empty, and that the token, the person URN and the display name
    neither begin nor end with a double or a single quote. *)
Theorem save_load_roundtrip (cid cs tok urn name : string) (expires_in : Z) (w w' : world) :
  one_line_field cid = true -> one_line_field cs = true -> one_line_field tok = true ->
  one_line_field urn = true -> one_line_field name = true ->
  bare_value tok = true -> bare_value urn = true -> bare_value name = true ->
  tok <> EmptyString -> urn <> EmptyString ->
  w_settings w' = w_settings (snd (save_settings cid cs tok urn name expires_in w)) ->
  (w_clock w + expires_in = 0 \/ w_clock w' <= w_clock w + expires_in)%Z ->
  exists settings,
    load_settings w' = (Ok settings, w') /\
    settings !! "access_token" = Some tok /\
    settings !! "person_urn" = Some urn /\
    settings !! "display_name" = Some name /\
    settings !! "token_expires_at" = Some (Zstr (w_clock w + expires_in)) /\
    py_int (Zstr (w_clock w + expires_in)) = Some (w_clock w + expires_in)%Z.
Proof.
  intros H1 H2 H3 H4 H5 Bt Bu Bn Et Eu Hw Hfresh.
  set (ea := (w_clock w + expires_in)%Z) in *.
  rewrite save_settings_world in Hw. fold ea in Hw.
  cbn [w_settings set_settings] in Hw.
  rewrite settings_content_shape in Hw.
  assert (Hd : py_in "---" (nl ++ fm_body cid cs tok urn name ea ++ nl) = false).
  { unfold one_line_field in *.
    apply andb_prop in H1 as [_ H1], H2 as [_ H2], H3 as [_ H3], H4 as [_ H4], H5 as [_ H5].
    apply Bool.negb_true_iff in H1, H2, H3, H4, H5.
    apply fm_no_dash3; assumption. }
  pose proof (parse_saved_frontmatter cid cs tok urn name ea H1 H2 H3 H4 H5) as Hp.
  rewrite (quoted_value tok Bt), (quoted_value urn Bu), (quoted_value name Bn) in Hp.
  exists (parse_frontmatter (nl ++ fm_body cid cs tok urn name ea ++ nl)).
  rewrite Hp. split; [|split; [|split; [|split; [|split]]]].
  - rewrite <- Hp. eapply load_settings_fresh.
    + exact Hw.
    + apply prefix_app.
    + apply split_dash. exact Hd.
    + rewrite Hp. intros k [<- | [<- | []]]; eexists; split.
      * rewrite !lookup_insert_ne by discriminate. apply lookup_insert_eq.
      * exact Et.
      * rewrite !lookup_insert_ne by discriminate. apply lookup_insert_eq.
      * exact Eu.
    + rewrite Hp, lookup_insert_eq. apply py_int_Zstr.
    + exact Hfresh.
  - rewrite !lookup_insert_ne by discriminate. apply lookup_insert_eq.
  - rewrite !lookup_insert_ne by discriminate. apply lookup_insert_eq.
  - rewrite !lookup_insert_ne by discriminate. apply lookup_insert_eq.
  - apply lookup_insert_eq.
  - apply py_int_Zstr.
Qed.

Lemma save_load_roundtrip_witness :
  exists settings,
    load_settings (snd (save_settings "cid" "secret" "tok" "urn:li:person:1" "Bob" 3600
                          (oauth_world 100))) =
      (Ok settings, snd (save_settings "cid" "secret" "tok" "urn:li:person:1" "Bob" 3600
                          (oauth_world 100))) /\
    settings !! "access_token" = Some "tok" /\
    settings !! "person_urn" = Some "urn:li:person:1" /\
    settings !! "display_name" = Some "Bob" /\
    settings !! "token_expires_at" = Some (Zstr (w_clock (oauth_world 100) + 3600)) /\
    py_int (Zstr (w_clock (oauth_world 100) + 3600)) = Some (w_clock (oauth_world 100) + 3600)%Z.
Proof.
  apply (save_load_roundtrip "cid" "secret" "tok" "urn:li:person:1" "Bob" 3600
           (oauth_world 100)
           (snd (save_settings "cid" "secret" "tok" "urn:li:person:1" "Bob" 3600
                   (oauth_world 100))));
    try reflexivity; try discriminate.
  right. simpl. lia.
Defined.

(** C4 counterexample: a display name written as ['Bob'] (with single
    quotes) is read back as [Bob]. *)
Lemma save_load_quoted_name_lost :
  loaded_field "display_name"
    (snd (save_settings "cid" "secret" "tok" "urn:li:person:1" "'Bob'" 3600
            (oauth_world 100))) = Some "Bob" /\
  "Bob" <> "'Bob'".
Proof. split; [vm_compute; reflexivity | discriminate]. Qed.

(* ================================================================== *)
(** * Properties of the remaining code *)

(* ------------------------------------------------------------------ *)
(** ** Auxiliary facts for the remaining code *)

Lemma all_chars_app (p : ascii -> bool) (a b : string) :
  all_chars p (a ++ b) = all_chars p a && all_chars p b.
Proof.
  induction a as [|c a IH]; [reflexivity|].
  rewrite sapp_cons. simpl. rewrite IH. apply andb_assoc.
Qed.

(** The characters that may appear in a percent-encoded path segment. *)
Definition url_safe_chars : string :=
  "ABCDEFGHIJKLMNOPQRSTUVWXYZabcdefghijklmnopqrstuvwxyz0123456789_.-~%".

Definition url_safe_char (c : ascii) : bool := py_in (String c EmptyString) url_safe_chars.

Lemma quote_char_safe (c : ascii) : all_chars url_safe_char (quote_char c) = true.
Proof. destruct c as [[] [] [] [] [] [] [] []]; vm_compute; reflexivity. Qed.

(** Reading a percent-encoded string back, one escape or character at a
    time; used to show that no two strings encode alike. *)
Definition hex_val (c : ascii) : nat :=
  let n := nat_of_ascii c in if (n <? 58)%nat then n - 48 else n - 55.

Fixpoint url_unquote (s : string) : string :=
  match s with
  | EmptyString => EmptyString
  | String c s' =>
      if Ascii.eqb c "%"%char then
        match s' with
        | String h1 (String h2 s'') =>
            String (ascii_of_nat (hex_val h1 * 16 + hex_val h2)) (url_unquote s'')
        | _ => String c (url_unquote s')
        end
      else String c (url_unquote s')
  end.

Lemma url_unquote_char (c : ascii) (s : string) :
  url_unquote (quote_char c ++ s) = String c (url_unquote s).
Proof. destruct c as [[] [] [] [] [] [] [] []]; reflexivity. Qed.

Lemma url_unquote_quote (s : string) : url_unquote (url_quote s) = s.
Proof.
  induction s as [|c s IH]; [reflexivity|].
  simpl. rewrite url_unquote_char, IH. reflexivity.
Qed.

(** The values [parse_qs] collects under a name: those of the pairs with
    that name and a non-blank value, in order. *)
Definition qs_values (pairs : list (string * string)) (k : string) : list string :=
  List.map snd (List.filter (fun '(k', v) => String.eqb k' k && negb (String.eqb v EmptyString))
                  pairs).

Lemma parse_qs_go (pairs : list (string * string)) (m : gmap string (list string)) (k : string) :
  m !! k <> Some [] ->
  fold_left (fun params '(k, v) =>
               if String.eqb v EmptyString then params
               else <[k := (match params !! k with Some l => l | None => [] end
                            ++ [v])%list]> params) pairs m !! k =
    match (match m !! k with Some l => l | None => [] end ++ qs_values pairs k)%list with
    | [] => m !! k
    | l => Some l
    end.
Proof.
  revert m. induction pairs as [|[k' v] pairs IH]; intros m Hm; simpl.
  - rewrite app_nil_r. destruct (m !! k) as [[|x l]|]; congruence.
  - unfold qs_values in *. simpl.
    destruct (String.eqb_spec v EmptyString) as [Ev|Ev].
    + rewrite andb_false_r. apply IH. exact Hm.
    + rewrite andb_true_r. rewrite IH.
      2:{ destruct (String.eqb_spec k' k) as [->|Ne].
          - rewrite lookup_insert_eq. intros [=E]. apply app_eq_nil in E as [_ E].
            discriminate.
          - rewrite lookup_insert_ne by congruence. exact Hm. }
      destruct (String.eqb_spec k' k) as [->|Ne]; simpl.
      * rewrite lookup_insert_eq, <- app_assoc. simpl.
        destruct (match m !! k with Some l => l | None => [] end); reflexivity.
      * rewrite lookup_insert_ne by congruence. reflexivity.
Qed.

(** Computations that never change a given field [f] of the world. *)
Section Keeps.
Context {X : Type} (f : world -> X).

Definition keeps {A} (c : M A) : Prop := forall w, f (snd (c w)) = f w.

Lemma keeps_ret {A} (a : A) : keeps (ret a).
Proof. intros w. reflexivity. Qed.

Lemma keeps_throw {A} e : keeps (@throw A e).
Proof. intros w. reflexivity. Qed.

Lemma keeps_time_time : keeps time_time.
Proof. intros w. reflexivity. Qed.

Lemma keeps_read_file p : keeps (read_file p).
Proof. intros w. reflexivity. Qed.

Lemma keeps_localtime t : keeps (localtime_str t).
Proof. intros w. reflexivity. Qed.

Lemma keeps_bind {A B} (c : M A) (k : A -> M B) :
  keeps c -> (forall a, keeps (k a)) -> keeps (bind c k).
Proof.
  intros Hc Hk w. unfold bind. specialize (Hc w).
  destruct (c w) as [[a|e] w']; simpl in *; [rewrite Hk|]; exact Hc.
Qed.

Lemma keeps_catch {A} (c h : M A) : keeps c -> keeps h -> keeps (catch_sysexit c h).
Proof.
  intros Hc Hh w. unfold catch_sysexit. specialize (Hc w).
  destruct (c w) as [[a|[n|s]] w']; simpl in *; [exact Hc | rewrite Hh | ]; exact Hc.
Qed.

End Keeps.

Lemma keeps_print_err_stdout l : keeps w_stdout (print_err l).
Proof. intros w. reflexivity. Qed.
Lemma keeps_print_err_settings l : keeps w_settings (print_err l).
Proof. intros w. reflexivity. Qed.
Lemma keeps_urlopen_stdout rq : keeps w_stdout (urlopen rq).
Proof. intros w. reflexivity. Qed.
Lemma keeps_urlopen_settings rq : keeps w_settings (urlopen rq).
Proof. intros w. reflexivity. Qed.
Lemma keeps_print_out_settings l : keeps w_settings (print_out l).
Proof. intros w. reflexivity. Qed.

Create HintDb keeps_db.
#[local] Hint Resolve keeps_ret keeps_throw keeps_time_time keeps_read_file keeps_localtime
  keeps_print_err_stdout keeps_print_err_settings keeps_urlopen_stdout
  keeps_urlopen_settings keeps_print_out_settings : keeps_db.

Ltac keeps_tac :=
  repeat first
    [ solve [eauto with keeps_db]
    | progress cbv zeta
    | apply keeps_bind; [ | intro ]
    | apply keeps_catch
    | match goal with |- keeps _ (match ?x with _ => _ end) => destruct x end ].

Lemma keeps_json_get {X} (f : world -> X) j k : keeps f (json_get j k).
Proof. unfold json_get. keeps_tac. Qed.
Lemma keeps_json_index {X} (f : world -> X) j k : keeps f (json_index j k).
Proof. unfold json_index. keeps_tac. Qed.
Lemma keeps_json_get_or {X} (f : world -> X) j k d : keeps f (json_get_or j k d).
Proof. unfold json_get_or. keeps_tac. apply keeps_json_get. Qed.
Lemma keeps_dict_index {X} (f : world -> X) m k : keeps f (dict_index m k).
Proof. unfold dict_index. keeps_tac. Qed.
#[local] Hint Resolve keeps_json_get keeps_json_index keeps_json_get_or keeps_dict_index
  : keeps_db.

Lemma keeps_at {X} (f : world -> X) {A} (c : M A) w : keeps f c -> f (snd (c w)) = f w.
Proof. intros H. apply H. Qed.

Lemma check_required_keeps {X} (f : world -> X) keys settings :
  (forall l, keeps f (print_err l)) -> keeps f (check_required keys settings).
Proof. intros He. induction keys; simpl; keeps_tac; auto. Qed.

Lemma load_settings_keeps {X} (f : world -> X) :
  (forall l, keeps f (print_err l)) -> keeps f load_settings.
Proof.
  intros He w. unfold load_settings.
  destruct (w_settings w) as [content|]; apply keeps_at; keeps_tac; auto using check_required_keeps.
Qed.

Lemma parse_qs_values (pairs : list (string * string)) (k : string) :
  parse_qs pairs !! k = match qs_values pairs k with [] => None | l => Some l end.
Proof.
  unfold parse_qs. rewrite parse_qs_go by (rewrite lookup_empty; discriminate).
  rewrite lookup_empty. reflexivity.
Qed.

Lemma bind_read_file {A} (p : string) (k : option string -> M A) (w : world) :
  bind (read_file p) k w = k (w_files w p) w.
Proof. reflexivity. Qed.

(* ------------------------------------------------------------------ *)
(** ** Further properties *)

(** Percent-encoding a URN (as [get-post], [list-comments] and the
    comment commands do before putting it in a URL path) yields only
    letters, digits, [_ . - ~] and [%]: no [/], [?], [&], [#] or [:] of
    the URN reaches the URL. *)
Lemma url_quote_safe (s : string) : all_chars url_safe_char (url_quote s) = true.
Proof.
  induction s as [|c s IH]; [reflexivity|].
  simpl. rewrite all_chars_app, quote_char_safe, IH. reflexivity.
Qed.

(** Percent-encoding is injective: two different URNs never give the
    same encoded path segment. *)
Lemma url_quote_injective (s1 s2 : string) : url_quote s1 = url_quote s2 -> s1 = s2.
Proof.
  intros H. rewrite <- (url_unquote_quote s1), <- (url_unquote_quote s2), H. reflexivity.
Qed.

Lemma url_quote_injective_witness :
  url_quote "urn:li:share:7" = url_quote "urn:li:share:7" /\ "urn:li:share:7" = "urn:li:share:7".
Proof.
  split; [reflexivity|]. apply url_quote_injective. reflexivity.
Defined.

(** [parse_qs] maps a name to the non-blank values given for it, in the
    order they appear in the query, and has no entry for a name without
    any non-blank value. *)
Lemma parse_qs_lookup (pairs : list (string * string)) (k : string) :
  parse_qs pairs !! k = match qs_values pairs k with [] => None | l => Some l end.
Proof. apply parse_qs_values. Qed.

(** A callback whose first non-blank [code] value is [c] and whose first
    non-blank [state] value is the generated token lets the flow go on
    with [c], writing nothing. *)
Lemma oauth_callback_code (state c : string) (cs ss : list string)
    (query : list (string * string)) (w : world) :
  qs_values query "code" = c :: cs ->
  qs_values query "state" = state :: ss ->
  oauth_callback state query w = (Ok c, w).
Proof.
  intros Hc Hs. unfold oauth_callback, do_GET.
  assert (Lc : parse_qs query !! "code" = Some (c :: cs)) by (rewrite parse_qs_values, Hc; reflexivity).
  assert (Ls : parse_qs query !! "state" = Some (state :: ss)) by (rewrite parse_qs_values, Hs; reflexivity).
  rewrite bool_decide_eq_true_2 by (rewrite Lc; eauto). simpl negb. cbv iota.
  unfold param_first. rewrite Ls, String.eqb_refl. simpl negb. cbv iota.
  rewrite Lc. simpl. apply take_auth_result_code.
Qed.

Lemma oauth_callback_code_witness :
  oauth_callback "s3cr3t" [("state", EmptyString); ("code", "AQX"); ("state", "s3cr3t");
                           ("code", "AQY")]%list idle_world = (Ok "AQX", idle_world).
Proof.
  apply (oauth_callback_code "s3cr3t" "AQX" ["AQY"]%list []%list); reflexivity.
Defined.

(** When the server answers with an HTTP error, [api_request] sends that
    one request and exits with status 1, writing [ERROR=API request
    failed: <code> <reason>] to stderr, followed by [DETAILS=<body>] only
    when the error body is non-empty; stdout is untouched. *)
Lemma api_request_http_error (method url : string) (hs : list (string * string))
    (data : option json) (bin : option string) (code : Z) (reason ebody : string) (w : world) :
  (forall rq, w_net w (length (w_calls w)) rq = HttpError code reason ebody) ->
  exists rq,
    rq_method rq = method /\ rq_url rq = url /\ rq_headers rq = hs /\
    api_request method url hs data bin w =
      (Exc (SysExit 1),
       let w1 := add_stderr ("ERROR=API request failed: " ++ Zstr code ++ " " ++ reason)
                   (add_call rq w) in
       if String.eqb ebody EmptyString then w1 else add_stderr ("DETAILS=" ++ ebody) w1).
Proof.
  intros Hnet. unfold api_request. cbv zeta.
  eexists. split; [|split; [|split]]; [| | |].
  4:{ unfold bind at 1. cbn [urlopen]. rewrite Hnet.
      cbn -[add_stderr add_call].
      destruct (String.eqb ebody EmptyString); reflexivity. }
  all: reflexivity.
Qed.

Definition refusing_world (ebody : string) : world :=
  mk_world None 0 (fun _ => EmptyString) (fun _ => None)
    (fun _ _ => HttpError 422 "Unprocessable Entity" ebody) [] [] [].

Lemma api_request_http_error_witness :
  exists rq,
    rq_method rq = "POST" /\ rq_url rq = API_BASE ++ "/posts" /\
    rq_headers rq = get_api_headers "tok" /\
    api_request "POST" (API_BASE ++ "/posts") (get_api_headers "tok") (Some JNull) None
      (refusing_world "bad") =
      (Exc (SysExit 1),
       let w1 := add_stderr ("ERROR=API request failed: " ++ Zstr 422 ++ " " ++
                             "Unprocessable Entity") (add_call rq (refusing_world "bad")) in
       if String.eqb "bad" EmptyString then w1 else add_stderr ("DETAILS=" ++ "bad") w1).
Proof.
  apply (api_request_http_error "POST" (API_BASE ++ "/posts") (get_api_headers "tok")
           (Some JNull) None 422 "Unprocessable Entity" "bad" (refusing_world "bad")).
  intros rq. reflexivity.
Defined.

(** [verify_post_text] never ends the process: whatever the server
    answers, it does not end in [sys.exit] (an API error becomes a
    warning), and it writes nothing to stdout and leaves the settings
    file alone. *)
Lemma verify_post_text_no_exit (access_token post_id text : string) (w : world) :
  (forall n, fst (verify_post_text access_token post_id text w) <> Exc (SysExit n)) /\
  w_stdout (snd (verify_post_text access_token post_id text w)) = w_stdout w /\
  w_settings (snd (verify_post_text access_token post_id text w)) = w_settings w.
Proof.
  split; [|split].
  - intros n. unfold verify_post_text, catch_sysexit.
    match goal with |- fst (match ?c w with _ => _ end) <> _ => destruct (c w) as [[a|[m|s]] w'] end;
      simpl; discriminate.
  - apply keeps_at. unfold verify_post_text, api_request. keeps_tac.
  - apply keeps_at. unfold verify_post_text, api_request. keeps_tac.
Qed.

(** [load_settings] never sends a request, never writes to stdout and
    never changes the settings file; its only output is on stderr. *)
Lemma load_settings_quiet (w : world) :
  w_calls (snd (load_settings w)) = w_calls w /\
  w_stdout (snd (load_settings w)) = w_stdout w /\
  w_settings (snd (load_settings w)) = w_settings w.
Proof.
  split; [|split].
  - apply sends_nothing, load_settings_sends.
  - apply keeps_at, load_settings_keeps. intros l. apply keeps_print_err_stdout.
  - apply keeps_at, load_settings_keeps. intros l. apply keeps_print_err_settings.
Qed.

Definition missing_access_token_message : string :=
  "ERROR=Missing access_token in settings. Run /linkedin:setup first.".

(** A settings file whose frontmatter has no [access_token], or an empty
    one, makes [load_settings] exit with status 1 and the
    [access_token] message, whatever the other fields are: the token is
    checked before the person URN and before the expiry. *)
Lemma load_settings_missing_token (w : world) (content x frontmatter : string)
    (rest : list string) :
  w_settings w = Some content ->
  String.prefix "---" content = true ->
  py_split "---" content = x :: frontmatter :: rest ->
  match parse_frontmatter frontmatter !! "access_token" with
  | None => True
  | Some v => v = EmptyString
  end ->
  load_settings w = (Exc (SysExit 1), add_stderr missing_access_token_message w).
Proof.
  intros Hs Hp Hsplit Hmiss. unfold load_settings. rewrite Hs, Hp, Hsplit.
  cbn [negb]. cbv iota beta zeta. unfold bind at 1. simpl check_required.
  destruct (parse_frontmatter frontmatter !! "access_token") as [v|].
  - subst v. reflexivity.
  - reflexivity.
Qed.

Definition no_token_settings : string :=
  "---" ++ nl ++ "person_urn: urn:li:person:abc" ++ nl ++ "access_token: " ++ nl ++
  "---" ++ nl.

Lemma load_settings_missing_token_witness :
  load_settings (settings_world no_token_settings 100) =
    (Exc (SysExit 1), add_stderr missing_access_token_message
                        (settings_world no_token_settings 100)).
Proof.
  apply (load_settings_missing_token _ no_token_settings EmptyString
           (nl ++ "person_urn: urn:li:person:abc" ++ nl ++ "access_token: " ++ nl) [nl]%list);
    vm_compute; reflexivity.
Defined.

Lemma bind_ret {A B} (a : A) (k : A -> M B) (w : world) : bind (ret a) k w = k a w.
Proof. reflexivity. Qed.

Lemma bind_print_out {B} (l : string) (k : unit -> M B) (w : world) :
  bind (print_out l) k w = k tt (add_stdout l w).
Proof. reflexivity. Qed.

Lemma bind_print_err {B} (l : string) (k : unit -> M B) (w : world) :
  bind (print_err l) k w = k tt (add_stderr l w).
Proof. reflexivity. Qed.

Lemma bind_urlopen {B} (rq : http_request) (k : http_response -> M B) (w : world) :
  bind (urlopen rq) k w = k (w_net w (length (w_calls w)) rq) (add_call rq w).
Proof. reflexivity. Qed.

Lemma bind_ok {A B} (c : M A) (k : A -> M B) (a : A) (w w' : world) :
  c w = (Ok a, w') -> bind c k w = k a w'.
Proof. intros H. unfold bind. rewrite H. reflexivity. Qed.

Lemma bind_exc {A B} (c : M A) (k : A -> M B) (e : exc) (w w' : world) :
  c w = (Exc e, w') -> bind c k w = (Exc e, w').
Proof. intros H. unfold bind. rewrite H. reflexivity. Qed.

Lemma dict_index_some (m : gmap string string) (k v : string) :
  m !! k = Some v -> dict_index m k = ret v.
Proof. intros H. unfold dict_index. rewrite H. reflexivity. Qed.

Lemma resolve_text_given (t : string) : resolve_text (Some t) None = ret t.
Proof. reflexivity. Qed.

(** The parts of the world [validate_text_length] leaves alone. *)
Lemma validate_text_length_step {B} (t : string) (n : nat) (k : bool -> M B) (w : world) :
  exists ok w1, bind (validate_text_length t n) k w = k ok w1 /\
    w_calls w1 = w_calls w /\ w_files w1 = w_files w /\ w_net w1 = w_net w /\
    w_settings w1 = w_settings w /\ w_stdout w1 = w_stdout w.
Proof.
  unfold validate_text_length. cbv zeta.
  destruct (n <? String.length t)%nat; cbn; eauto 10.
Qed.

Lemma oauth_callback_ok (state c : string) (cs ss : list string)
    (query : list (string * string)) (w : world) :
  qs_values query "code" = c :: cs ->
  qs_values query "state" = state :: ss ->
  oauth_callback state query w = (Ok c, w).
Proof.
  intros Hc Hs. unfold oauth_callback, do_GET.
  assert (Lc : parse_qs query !! "code" = Some (c :: cs)) by (rewrite parse_qs_values, Hc; reflexivity).
  assert (Ls : parse_qs query !! "state" = Some (state :: ss)) by (rewrite parse_qs_values, Hs; reflexivity).
  rewrite bool_decide_eq_true_2 by (rewrite Lc; eauto). simpl negb. cbv iota.
  unfold param_first. rewrite Ls, String.eqb_refl. simpl negb. cbv iota.
  rewrite Lc. simpl. apply take_auth_result_code.
Qed.

(** A callback without a code, or whose first [state] is not the
    generated one, ends the flow with status 1 after one stdout line. *)
Lemma oauth_callback_rejected (state : string) (query : list (string * string)) (w : world) :
  qs_values query "code" = [] \/ hd EmptyString (qs_values query "state") <> state ->
  exists l, oauth_callback state query w = (Exc (SysExit 1), add_stdout l w).
Proof.
  intros H. unfold oauth_callback, do_GET.
  destruct (bool_decide (is_Some (parse_qs query !! "code"))) eqn:Ec;
    cbn [negb expected_state]; cbv iota.
  - apply bool_decide_eq_true_1 in Ec.
    assert (Hs : param_first (parse_qs query) "state" EmptyString <> state).
    { destruct H as [H|H].
      - rewrite parse_qs_values, H in Ec. destruct Ec as [? [=]].
      - unfold param_first. rewrite parse_qs_values.
        destruct (qs_values query "state") as [|v l]; exact H. }
    apply String.eqb_neq in Hs. rewrite Hs. simpl.
    eexists. apply take_auth_result_error. apply lookup_insert_eq.
  - simpl. eexists. apply take_auth_result_error. apply lookup_insert_eq.
Qed.

(** [--preview] of [post-text] never contacts LinkedIn: whatever the
    settings, the text and the server, no request is sent. *)
Lemma cmd_post_text_preview_offline (text text_file : option string) (visibility : string)
    (w : world) :
  w_calls (snd (cmd_post_text text text_file visibility true w)) = w_calls w.
Proof. apply sends_nothing. unfold cmd_post_text. sends_tac. Qed.

(** Without [--preview], [post-text] with valid settings always sends the
    post request for the given text, however long it is: the length
    check only warns. After it come GET requests only (the read-back). *)
Lemma cmd_post_text_posts (text visibility token urn : string)
    (settings : gmap string string) (w : world) :
  load_settings w = (Ok settings, w) ->
  settings !! "access_token" = Some token ->
  settings !! "person_urn" = Some urn ->
  exists rest,
    w_calls (snd (cmd_post_text (Some text) None visibility false w)) =
      (w_calls w ++ post_request token urn text None visibility :: rest)%list /\
    Forall is_get rest.
Proof.
  intros Hload Htok Hurn. unfold cmd_post_text.
  rewrite (bind_ok _ _ _ _ _ Hload), resolve_text_given, bind_ret.
  destruct (validate_text_length_step text 3000
              (fun _ : bool => token <- dict_index settings "access_token" ;;
                 urn <- dict_index settings "person_urn" ;;
                 post_id <- create_post token urn text None visibility ;;
                 print_out "SUCCESS=Post created" ;;; print_out ("POST_ID=" ++ post_id)) w)
    as (ok & w1 & -> & Hc & _).
  rewrite (dict_index_some _ _ _ Htok), bind_ret, (dict_index_some _ _ _ Hurn), bind_ret.
  destruct (create_post_sends token urn text None visibility w1) as [rest [Hp F]].
  exists rest. split; [|exact F]. rewrite <- Hc, <- Hp.
  unfold bind. destruct (create_post token urn text None visibility w1) as [[pid|e] w2];
    reflexivity.
Qed.

Definition signed_in_world (clock : Z) (files : string -> option string)
    (net : nat -> http_request -> http_response) : world :=
  mk_world (Some (sample_settings "0")) clock (fun _ => EmptyString) files net [] [] [].

Lemma cmd_post_text_posts_witness :
  exists rest,
    w_calls (snd (cmd_post_text (Some (str_repeat 3001 "a")) None "PUBLIC" false
                    (signed_in_world 100 (fun _ => None) (fun _ _ => HttpResp 201 [] None)))) =
      (w_calls (signed_in_world 100 (fun _ => None) (fun _ _ => HttpResp 201 [] None)) ++
       post_request "tok" "urn:li:person:1" (str_repeat 3001 "a") None "PUBLIC" :: rest)%list /\
    Forall is_get rest.
Proof.
  apply (cmd_post_text_posts _ _ _ _ (parse_frontmatter (sample_frontmatter "0")));
    vm_compute; reflexivity.
Defined.

(** [check-auth] on settings that load: it prints [AUTHENTICATED=true],
    the person URN, the display name (default [Unknown]) and
    [TOKEN_DAYS_LEFT], the floor of the seconds left over 86400. That
    count is negative exactly when the expiry lies in the past, so a file
    without [token_expires_at] (read as 0, a token [load_settings] never
    treats as expired) reports a negative number of days. *)
Lemma cmd_check_auth_output (w : world) (settings : gmap string string) (p : string) (ea : Z) :
  load_settings w = (Ok settings, w) ->
  settings !! "person_urn" = Some p ->
  match settings !! "token_expires_at" with
  | None => ea = 0%Z
  | Some v => py_int v = Some ea
  end ->
  cmd_check_auth w =
    (Ok tt,
     add_stdout ("TOKEN_DAYS_LEFT=" ++ Zstr ((ea - w_clock w) / 86400))
       (add_stdout ("DISPLAY_NAME=" ++ dict_get settings "display_name" "Unknown")
          (add_stdout ("PERSON_URN=" ++ p) (add_stdout "AUTHENTICATED=true" w)))) /\
  ((ea - w_clock w) / 86400 < 0 <-> ea < w_clock w)%Z.
Proof.
  intros Hload Hp Hea. split.
  - unfold cmd_check_auth. rewrite (bind_ok _ _ _ _ _ Hload).
    assert (He : settings_expires_at settings = ret ea).
    { unfold settings_expires_at.
      destruct (settings !! "token_expires_at") as [v|]; [rewrite Hea | subst ea]; reflexivity. }
    rewrite He, bind_ret. unfold bind at 1, time_time. cbv beta iota zeta.
    rewrite bind_print_out. rewrite (dict_index_some _ _ _ Hp), bind_ret. reflexivity.
  - split; intros H.
    + destruct (Z.lt_ge_cases ea (w_clock w)) as [L|L]; [exact L|].
      assert (0 <= (ea - w_clock w) / 86400)%Z by (apply Z.div_pos; lia). lia.
    + apply Z.div_lt_upper_bound; lia.
Qed.

Lemma cmd_check_auth_output_witness :
  cmd_check_auth (settings_world (sample_settings "0") 100) =
    (Ok tt,
     add_stdout ("TOKEN_DAYS_LEFT=" ++ Zstr ((0 - 100) / 86400))
       (add_stdout ("DISPLAY_NAME=" ++ "Unknown")
          (add_stdout ("PERSON_URN=" ++ "urn:li:person:1")
             (add_stdout "AUTHENTICATED=true" (settings_world (sample_settings "0") 100))))) /\
  ((0 - 100) / 86400 < 0 <-> 0 < 100)%Z.
Proof.
  apply (cmd_check_auth_output (settings_world (sample_settings "0") 100)
           (parse_frontmatter (sample_frontmatter "0")) "urn:li:person:1" 0);
    vm_compute; reflexivity.
Defined.

(** [post-image --preview] with valid settings, an existing image file
    and an answering upload server sends exactly two requests, the
    upload initialisation and the binary upload, and no post request. *)
Lemma cmd_post_image_preview (text p title visibility token urn u b : string)
    (img : json) (st st' : Z) (hs hs' : list (string * string)) (bd : option json)
    (settings : gmap string string) (w : world) :
  load_settings w = (Ok settings, w) ->
  settings !! "access_token" = Some token ->
  settings !! "person_urn" = Some urn ->
  w_files w p = Some b ->
  w_net w (length (w_calls w)) (init_request token urn) = upload_answer st hs u img ->
  w_net w (S (length (w_calls w))) (put_request token u b) = HttpResp st' hs' bd ->
  exists w', cmd_post_image (Some text) None [p]%list title visibility true w = (Ok tt, w') /\
    w_calls w' = (w_calls w ++ [init_request token urn; put_request token u b])%list.
Proof.
  intros Hload Htok Hurn Hf Hi Hp. unfold cmd_post_image.
  rewrite (bind_ok _ _ _ _ _ Hload).
  rewrite (dict_index_some _ _ _ Htok), bind_ret, (dict_index_some _ _ _ Hurn), bind_ret.
  rewrite resolve_text_given, bind_ret.
  match goal with |- exists w', bind (validate_text_length ?t ?n) ?k w = _ /\ _ =>
    destruct (validate_text_length_step t n k w) as (ok & w1 & -> & Hc & Hf1 & Hn1 & _) end.
  rewrite bind_ret.
  rewrite (bind_ok _ _ _ _ _ (upload_image_ok token urn p b u img st hs st' hs' bd w1
             (length (w_calls w1)) eq_refl ltac:(rewrite Hf1; exact Hf)
             ltac:(rewrite Hn1, Hc; exact Hi) ltac:(rewrite Hn1, Hc; exact Hp))).
  eexists. split; [reflexivity|]. simpl. rewrite Hc, <- app_assoc. reflexivity.
Qed.

Definition image_world : world :=
  signed_in_world 100 (fun p => if String.eqb p "a.png" then Some "PNG" else None)
    (fun n _ => match n with
                | 0 => upload_answer 200 [] "https://up.example/a" (JStr "urn:li:image:a")
                | _ => HttpResp 201 [] None
                end%nat).

Lemma cmd_post_image_preview_witness :
  exists w', cmd_post_image (Some "hello") None ["a.png"]%list EmptyString "PUBLIC" true
               image_world = (Ok tt, w') /\
    w_calls w' = (w_calls image_world ++ [init_request "tok" "urn:li:person:1";
                                          put_request "tok" "https://up.example/a" "PNG"])%list.
Proof.
  apply (cmd_post_image_preview "hello" "a.png" EmptyString "PUBLIC" "tok" "urn:li:person:1"
           "https://up.example/a" "PNG" (JStr "urn:li:image:a") 200 201 [] [] None
           (parse_frontmatter (sample_frontmatter "0")));
    vm_compute; reflexivity.
Defined.

(** [post-article --preview] without a thumbnail never contacts
    LinkedIn. *)
Lemma cmd_post_article_preview_offline (text text_file : option string)
    (url title description visibility : string) (w : world) :
  w_calls (snd (cmd_post_article text text_file url title description EmptyString
                  visibility true w)) = w_calls w.
Proof.
  apply sends_nothing. unfold cmd_post_article.
  change (nonblank EmptyString) with false. sends_tac.
Qed.




(** The redirect URI [run_oauth_flow] registers for [port]. *)
Definition callback_uri (port : Z) : string := "http://localhost:" ++ Zstr port ++ "/callback".

(** The OAuth flow, from a callback that carries the generated [state] and
    a code, with a token answer that has no [expires_in] and a profile
    answer: it sends exactly two requests, the code exchange and the
    profile read, succeeds, and saves the token, the person URN
    [urn:li:person:<sub>] and the name, with an expiry 5184000 seconds
    (60 days) from now. *)
Lemma run_oauth_flow_ok (cid csec state code token sub name : string) (port : Z)
    (cs ss : list string) (query : list (string * string)) (st1 st2 : Z)
    (hs1 hs2 : list (string * string)) (tm um : list (string * json)) (w : world) :
  qs_values query "code" = code :: cs ->
  qs_values query "state" = state :: ss ->
  obj_lookup "access_token" tm = Some (JStr token) ->
  obj_lookup "expires_in" tm = None ->
  obj_lookup "sub" um = Some (JStr sub) ->
  obj_lookup "name" um = Some (JStr name) ->
  w_net w (length (w_calls w)) (token_request code cid csec (callback_uri port)) =
    HttpResp st1 hs1 (Some (JObj tm)) ->
  w_net w (S (length (w_calls w))) (userinfo_request token) =
    HttpResp st2 hs2 (Some (JObj um)) ->
  exists w', run_oauth_flow cid csec port state query w = (Ok tt, w') /\
    w_calls w' = (w_calls w ++ [token_request code cid csec (callback_uri port);
                                userinfo_request token])%list /\
    w_settings w' =
      Some (settings_content cid csec token ("urn:li:person:" ++ sub) name
              (w_clock w + 5184000) (w_localtime w (w_clock w + 5184000))).
Proof.
  intros Hc Hs Htok Hexp Hsub Hname Hn1 Hn2. unfold run_oauth_flow. cbv zeta.
  rewrite !bind_print_out.
  rewrite (bind_ok _ _ _ _ _ (oauth_callback_ok state code cs ss query _ Hc Hs)).
  cbv [bind ret oauth_exchange exchange_code_for_token urlopen_json urlopen json_index
       json_get_or json_get fetch_user_info save_settings time_time localtime_str print_out].
  destruct w as [set0 clock lt files net calls out err]; cbn in Hn1, Hn2 |- *.
  fold (callback_uri port). rewrite Hn1. cbn. rewrite Htok, Hexp. cbn.
  rewrite length_app, Nat.add_1_r, Hn2. cbn. rewrite Hsub, Hname. cbn.
  eexists. split; [reflexivity|].
  split; [cbn; rewrite <- app_assoc; reflexivity | reflexivity].
Qed.

Definition oauth_net (n : nat) (rq : http_request) : http_response :=
  match n with
  | 0 => HttpResp 200 [] (Some (JObj [("access_token", JStr "AQV")]))
  | _ => HttpResp 200 [] (Some (JObj [("sub", JStr "x1"); ("name", JStr "Ada")]))
  end%nat.

Definition oauth_flow_world : world :=
  mk_world None 1000 (fun _ => "later") (fun _ => None) oauth_net [] [] [].

Lemma run_oauth_flow_ok_witness :
  exists w', run_oauth_flow "cid" "sec" 8585 "st8" [("code", "C0"); ("state", "st8")]%list
               oauth_flow_world = (Ok tt, w') /\
    w_calls w' = (w_calls oauth_flow_world ++
                  [token_request "C0" "cid" "sec" (callback_uri 8585);
                   userinfo_request "AQV"])%list /\
    w_settings w' =
      Some (settings_content "cid" "sec" "AQV" ("urn:li:person:" ++ "x1") "Ada"
              (w_clock oauth_flow_world + 5184000)
              (w_localtime oauth_flow_world (w_clock oauth_flow_world + 5184000))).
Proof.
  apply (run_oauth_flow_ok _ _ _ _ _ _ _ _ []%list []%list _ 200 200 []%list []%list
           [("access_token", JStr "AQV")]%list [("sub", JStr "x1"); ("name", JStr "Ada")]%list);
    reflexivity.
Defined.

(** A callback without a code, or whose first [state] value is not the
    generated token, ends the OAuth flow with status 1 before any
    request: no code is exchanged and the settings file is untouched. *)
Lemma run_oauth_flow_rejected (cid csec state : string) (port : Z)
    (query : list (string * string)) (w : world) :
  qs_values query "code" = [] \/ hd EmptyString (qs_values query "state") <> state ->
  exit_code (fst (run_oauth_flow cid csec port state query w)) = 1%Z /\
  w_calls (snd (run_oauth_flow cid csec port state query w)) = w_calls w /\
  w_settings (snd (run_oauth_flow cid csec port state query w)) = w_settings w.
Proof.
  intros H. unfold run_oauth_flow. cbv zeta. rewrite !bind_print_out.
  match goal with |- context [bind (oauth_callback state query) ?k ?w1] =>
    destruct (oauth_callback_rejected state query w1 H) as [l E];
    rewrite (bind_exc _ k _ _ _ E) end.
  split; [reflexivity | split; reflexivity].
Qed.

Lemma run_oauth_flow_rejected_witness :
  exit_code (fst (run_oauth_flow "cid" "sec" 8585 "st8"
                    [("code", "C0"); ("state", "forged")]%list oauth_flow_world)) = 1%Z /\
  w_calls (snd (run_oauth_flow "cid" "sec" 8585 "st8"
                  [("code", "C0"); ("state", "forged")]%list oauth_flow_world)) =
    w_calls oauth_flow_world /\
  w_settings (snd (run_oauth_flow "cid" "sec" 8585 "st8"
                     [("code", "C0"); ("state", "forged")]%list oauth_flow_world)) =
    w_settings oauth_flow_world.
Proof.
  apply run_oauth_flow_rejected. right. vm_compute. discriminate.
Defined.

(** [upload_image] also accepts an initialisation answer that is not
    wrapped in [value]: with [uploadUrl] and [image] at the top level it
    uploads the file to [uploadUrl] and returns [image]. *)
Lemma upload_image_bare_answer (token urn p b u : string) (img : json)
    (members : list (string * json)) (st st' : Z) (hs hs' : list (string * string))
    (bd : option json) (w : world) :
  w_files w p = Some b ->
  obj_lookup "value" members = None ->
  obj_lookup "uploadUrl" members = Some (JStr u) ->
  obj_lookup "image" members = Some img ->
  w_net w (length (w_calls w)) (init_request token urn) = HttpResp st hs (Some (JObj members)) ->
  w_net w (S (length (w_calls w))) (put_request token u b) = HttpResp st' hs' bd ->
  upload_image token urn p w =
    (Ok img, add_call (put_request token u b) (add_call (init_request token urn) w)).
Proof.
  intros Hf Hv Hu Hi Hn1 Hn2. unfold upload_image. rewrite bind_read_file, Hf.
  cbv zeta. unfold api_request. cbv zeta. rewrite !bind_assoc, bind_urlopen.
  fold (init_request token urn). rewrite Hn1. cbv beta iota. rewrite bind_ret.
  unfold ar_body, json_get. rewrite bind_ret, Hv. unfold json_index.
  rewrite Hu, bind_ret, Hi, bind_ret. rewrite bind_urlopen.
  rewrite length_add_call. change (w_net (add_call (init_request token urn) w)) with (w_net w).
  unfold put_request in Hn2. rewrite Hn2. reflexivity.
Qed.

Definition bare_upload_world : world :=
  mk_world None 0 (fun _ => EmptyString) (fun _ => Some "PNG")
    (fun n _ => match n with
                | 0 => HttpResp 200 [] (Some (JObj [("uploadUrl", JStr "https://up.example/b");
                                                    ("image", JStr "urn:li:image:b")]))
                | _ => HttpResp 201 [] None
                end%nat) [] [] [].

Lemma upload_image_bare_answer_witness :
  upload_image "tok" "urn:li:person:1" "b.png" bare_upload_world =
    (Ok (JStr "urn:li:image:b"),
     add_call (put_request "tok" "https://up.example/b" "PNG")
       (add_call (init_request "tok" "urn:li:person:1") bare_upload_world)).
Proof.
  apply (upload_image_bare_answer _ _ _ _ _ _
           [("uploadUrl", JStr "https://up.example/b"); ("image", JStr "urn:li:image:b")]%list
           200 201 [] [] None); reflexivity.
Defined.

(** The [images] list of a multi-image post has one entry per uploaded
    image, in upload order; entry [k] (counted from the start index [i])
    carries the image URN as [id], and an [altText] exactly when there
    is an alt text at position [i + k]. *)
Lemma images_payload_entries (i : nat) (alt_texts : list string) (urns : list json) :
  length (images_payload i alt_texts urns) = length urns /\
  forall k u, nth_error urns k = Some u ->
    nth_error (images_payload i alt_texts urns) k =
      Some (if (i + k <? length alt_texts)%nat
            then JObj [("id", u); ("altText", JStr (nth (i + k) alt_texts EmptyString))]%list
            else JObj [("id", u)]%list).
Proof.
  revert i. induction urns as [|u0 urns IH]; intros i; split.
  - reflexivity.
  - intros k u H. destruct k; discriminate.
  - simpl. f_equal. apply IH.
  - intros [|k] u H; simpl in H |- *.
    + injection H as <-. rewrite Nat.add_0_r. reflexivity.
    + rewrite (proj2 (IH (S i)) k u H). replace (S i + k)%nat with (i + S k)%nat by lia.
      reflexivity.
Qed.

(** With valid settings, a comment list whose [elements] is absent or
    empty makes [list-comments] print only the [NO_COMMENTS] line and
    succeed, after its single GET request. *)
Lemma cmd_list_comments_empty (post_urn token : string) (start count st : Z)
    (settings : gmap string string) (hs : list (string * string))
    (members : list (string * json)) (w : world) :
  load_settings w = (Ok settings, w) ->
  settings !! "access_token" = Some token ->
  match obj_lookup "elements" members with None => True | Some e => e = JArr [] end ->
  w_net w (length (w_calls w)) (list_comments_request token post_urn start count) =
    HttpResp st hs (Some (JObj members)) ->
  cmd_list_comments post_urn start count w =
    (Ok tt, add_stdout "NO_COMMENTS=No comments found on this post"
              (add_call (list_comments_request token post_urn start count) w)).
Proof.
  intros Hload Htok He Hnet. unfold cmd_list_comments.
  rewrite (bind_ok _ _ _ _ _ Hload), (dict_index_some _ _ _ Htok), bind_ret.
  cbv zeta. unfold catch_sysexit at 1, bind at 1. unfold api_request. cbv zeta.
  rewrite bind_urlopen. fold (list_comments_request token post_urn start count).
  rewrite Hnet. cbv beta iota. unfold ret at 1.
  unfold json_get_or, json_get, ar_body. rewrite bind_assoc, !bind_ret.
  destruct (obj_lookup "elements" members) as [e|]; [subst e|]; reflexivity.
Qed.

Definition empty_comments_world : world :=
  signed_in_world 100 (fun _ => None) (fun _ _ => HttpResp 200 [] (Some (JObj [("elements", JArr [])]))).

Lemma cmd_list_comments_empty_witness :
  cmd_list_comments "urn:li:activity:5" 0 20 empty_comments_world =
    (Ok tt, add_stdout "NO_COMMENTS=No comments found on this post"
              (add_call (list_comments_request "tok" "urn:li:activity:5" 0 20)
                 empty_comments_world)).
Proof.
  apply (cmd_list_comments_empty _ _ _ _ 200 (parse_frontmatter (sample_frontmatter "0")) []
           [("elements", JArr [])]%list); vm_compute; reflexivity.
Defined.

Lemma substring_whole (n : nat) (s : string) :
  (String.length s <= n)%nat -> substring 0 n s = s.
Proof.
  revert n. induction s as [|a s IH]; intros n H; destruct n; cbn in H |- *;
    try reflexivity; try lia.
  rewrite IH; [reflexivity | lia].
Qed.

(** [commentary[:100]] and [commentary[-100:]] of a commentary of at most
    100 characters are the whole commentary. *)
Lemma py_head_tail_short (s : string) :
  (String.length s <= 100)%nat -> py_head 100 s = s /\ py_tail 100 s = s.
Proof.
  intros H. unfold py_head, py_tail.
  replace (String.length s - 100)%nat with 0%nat by lia.
  rewrite substring_whole by exact H. split; reflexivity.
Qed.

(** [get-post] with valid settings, on a post whose commentary has at
    most 100 characters: one GET request to the post's URL, then the
    length line and three lines ([START], [END], [FULL]) that each show
    the whole commentary. *)
Lemma cmd_get_post_short (post_id token c : string) (settings : gmap string string)
    (st : Z) (hs : list (string * string)) (members : list (string * json)) (w : world) :
  load_settings w = (Ok settings, w) ->
  settings !! "access_token" = Some token ->
  obj_lookup "commentary" members = Some (JStr c) ->
  (String.length c <= 100)%nat ->
  w_net w (length (w_calls w)) (get_post_request token post_id) =
    HttpResp st hs (Some (JObj members)) ->
  cmd_get_post post_id w =
    (Ok tt,
     add_stdout ("FULL_COMMENTARY=" ++ c)
       (add_stdout ("COMMENTARY_END=" ++ c)
          (add_stdout ("COMMENTARY_START=" ++ c)
             (add_stdout ("COMMENTARY_LENGTH=" ++ Zstr (Z.of_nat (String.length c)))
                (add_call (get_post_request token post_id) w))))).
Proof.
  intros Hload Htok Hc Hlen Hnet. unfold cmd_get_post.
  rewrite (bind_ok _ _ _ _ _ Hload), (dict_index_some _ _ _ Htok), bind_ret.
  cbv zeta. unfold catch_sysexit at 1, bind at 1. unfold api_request. cbv zeta.
  rewrite bind_urlopen. fold (get_post_request token post_id).
  rewrite Hnet. cbv beta iota. unfold ret at 1.
  unfold json_get, ar_body. rewrite bind_ret, Hc.
  destruct (py_head_tail_short c Hlen) as [Hh Ht].
  rewrite !bind_print_out. cbn [json_str]. rewrite Hh, Ht. reflexivity.
Qed.

Definition short_post_world : world :=
  signed_in_world 100 (fun _ => None)
    (fun _ _ => HttpResp 200 [] (Some (JObj [("commentary", JStr "Hello LinkedIn")]))).

Lemma cmd_get_post_short_witness :
  cmd_get_post "urn:li:share:9" short_post_world =
    (Ok tt,
     add_stdout ("FULL_COMMENTARY=" ++ "Hello LinkedIn")
       (add_stdout ("COMMENTARY_END=" ++ "Hello LinkedIn")
          (add_stdout ("COMMENTARY_START=" ++ "Hello LinkedIn")
             (add_stdout ("COMMENTARY_LENGTH=" ++
                          Zstr (Z.of_nat (String.length "Hello LinkedIn")))
                (add_call (get_post_request "tok" "urn:li:share:9") short_post_world))))).
Proof.
  apply (cmd_get_post_short _ _ _ (parse_frontmatter (sample_frontmatter "0")) 200 []
           [("commentary", JStr "Hello LinkedIn")]%list);
    [vm_compute; reflexivity | vm_compute; reflexivity | reflexivity | cbn; lia
    | reflexivity].
Defined.






(** A computation that, whenever it raises, leaves [f] of the world as it
    found it. *)
Definition fail_keeps {X} (f : world -> X) {A} (c : M A) : Prop :=
  forall w e, fst (c w) = Exc e -> f (snd (c w)) = f w.

Lemma fail_keeps_of_keeps {X} (f : world -> X) {A} (c : M A) :
  keeps f c -> fail_keeps f c.
Proof. intros H w e _. apply H. Qed.

Lemma fail_keeps_bind {X} (f : world -> X) {A B} (c : M A) (k : A -> M B) :
  keeps f c -> (forall a, fail_keeps f (k a)) -> fail_keeps f (bind c k).
Proof.
  intros Hc Hk w e. unfold bind. specialize (Hc w).
  destruct (c w) as [[a|e'] w']; simpl in *; intros H; [rewrite (Hk a w' e H)|]; exact Hc.
Qed.

Lemma fail_keeps_ok {X} (f : world -> X) {A} (c : M A) :
  (forall w, exists a, fst (c w) = Ok a) -> fail_keeps f c.
Proof. intros H w e E. destruct (H w) as [a Ha]. congruence. Qed.

Lemma oauth_callback_keeps_settings (state : string) (query : list (string * string)) :
  keeps w_settings (oauth_callback state query).
Proof.
  unfold oauth_callback. destruct (do_GET query (mk_server state None)) as [_ srv].
  unfold take_auth_result, sys_exit. keeps_tac.
Qed.

Lemma fetch_user_info_keeps_settings (token : string) :
  keeps w_settings (fetch_user_info token).
Proof. unfold fetch_user_info, urlopen_json. keeps_tac. Qed.

Lemma exchange_keeps_settings (code client_id client_secret redirect_uri : string) :
  keeps w_settings (exchange_code_for_token code client_id client_secret redirect_uri).
Proof. unfold exchange_code_for_token, urlopen_json. keeps_tac. Qed.

(** [run_oauth_flow] never leaves a partial settings file: whenever the
    flow raises (a rejected or forged callback, a failed token exchange,
    a token answer without [access_token], a failed profile read or a
    non-integer [expires_in]), the settings file is as it was before. *)
Theorem run_oauth_flow_failure_keeps_settings (client_id client_secret : string)
    (port : Z) (state : string) (query : list (string * string)) (w : world) (e : exc) :
  fst (run_oauth_flow client_id client_secret port state query w) = Exc e ->
  w_settings (snd (run_oauth_flow client_id client_secret port state query w)) =
    w_settings w.
Proof.
  revert w e. change (fail_keeps w_settings
                        (run_oauth_flow client_id client_secret port state query)).
  unfold run_oauth_flow. cbv zeta.
  do 3 (apply fail_keeps_bind; [apply keeps_print_out_settings | intros _]).
  apply fail_keeps_bind; [apply oauth_callback_keeps_settings | intros code].
  unfold oauth_exchange.
  apply fail_keeps_bind; [apply keeps_print_out_settings | intros _].
  apply fail_keeps_bind; [apply exchange_keeps_settings | intros td].
  apply fail_keeps_bind; [apply keeps_json_index | intros tok].
  apply fail_keeps_bind; [apply keeps_json_get_or | intros ex].
  apply fail_keeps_bind; [apply keeps_print_out_settings | intros _].
  apply fail_keeps_bind; [apply fetch_user_info_keeps_settings | intros [pid dn]].
  cbv zeta. destruct ex as [| | n | | |].
  3: { apply fail_keeps_ok. intros w. eexists. reflexivity. }
  all: apply fail_keeps_of_keeps; keeps_tac.
Qed.

Lemma run_oauth_flow_failure_keeps_settings_witness :
  fst (run_oauth_flow "id" "secret" 8080 "st4te" [("state", "st4te"); ("code", "c0de")]%list
         (settings_world "old" 100)) = Exc (Raised "URLError") /\
  w_settings (snd (run_oauth_flow "id" "secret" 8080 "st4te"
                     [("state", "st4te"); ("code", "c0de")]%list
                     (settings_world "old" 100))) =
    w_settings (settings_world "old" 100).
Proof.
  split; [vm_compute; reflexivity|].
  apply (run_oauth_flow_failure_keeps_settings _ _ _ _ _ _ (Raised "URLError")).
  vm_compute; reflexivity.
Defined.

(** Without [--preview] and without a thumbnail, [post-article] with
    valid settings sends the post request with an [article] content whose
    fields are the [source] URL, then [title] if one is given, then
    [description] if one is given; after it come GET requests only (the
    read-back). No image upload is made. *)
Lemma cmd_post_article_payload (text url title description visibility token urn : string)
    (settings : gmap string string) (w : world) :
  load_settings w = (Ok settings, w) ->
  settings !! "access_token" = Some token ->
  settings !! "person_urn" = Some urn ->
  exists rest,
    w_calls (snd (cmd_post_article (Some text) None url title description EmptyString
                    visibility false w)) =
      (w_calls w ++
       post_request token urn text
         (Some (JObj [("article",
                       JObj ([("source", JStr url)] ++
                             (if nonblank title then [("title", JStr title)] else []) ++
                             (if nonblank description
                              then [("description", JStr description)] else [])))]))
         visibility :: rest)%list /\
    Forall is_get rest.
Proof.
  intros Hload Htok Hurn. unfold cmd_post_article.
  rewrite (bind_ok _ _ _ _ _ Hload), (dict_index_some _ _ _ Htok), bind_ret,
    (dict_index_some _ _ _ Hurn), bind_ret, resolve_text_given, bind_ret.
  match goal with
  | |- context [bind (validate_text_length ?t ?n) ?k ?w0] =>
      destruct (validate_text_length_step t n k w0) as (ok & w1 & -> & Hc & _)
  end.
  change (nonblank EmptyString) with false. cbv beta iota zeta.
  rewrite bind_ret. rewrite <- Hc.
  destruct (nonblank title), (nonblank description); cbn [app];
  match goal with
  | |- context [bind (create_post ?a ?b ?c ?d ?e) ?k ?wc] =>
      destruct (create_post_sends a b c d e wc) as [rest [Hp F]];
      exists rest; split; [|exact F]; rewrite <- Hp; unfold bind;
      destruct (create_post a b c d e wc) as [[pid|err] w2]; reflexivity
  end.
Qed.

Lemma cmd_post_article_payload_witness :
  exists rest,
    w_calls (snd (cmd_post_article (Some "Read this") None "https://example.com/a" "A title"
                    EmptyString EmptyString "PUBLIC" false
                    (signed_in_world 100 (fun _ => None) (fun _ _ => HttpResp 201 [] None)))) =
      (w_calls (signed_in_world 100 (fun _ => None) (fun _ _ => HttpResp 201 [] None)) ++
       post_request "tok" "urn:li:person:1" "Read this"
         (Some (JObj [("article",
                       JObj ([("source", JStr "https://example.com/a")] ++
                             (if nonblank "A title" then [("title", JStr "A title")] else []) ++
                             (if nonblank EmptyString
                              then [("description", JStr EmptyString)] else [])))]))
         "PUBLIC" :: rest)%list /\
    Forall is_get rest.
Proof.
  apply (cmd_post_article_payload _ _ _ _ _ _ _ (parse_frontmatter (sample_frontmatter "0")));
    vm_compute; reflexivity.
Defined.
